(** * MyFavoriteDouble: the MATLAB bridge of [myClass]

    A shallow embedding of [myClass.hpp] and of the command dispatcher
    [mexFunction] of [myFavDouble_mex.cpp].

    - a C++ [double] is a primitive IEEE-754 binary64 [float];
    - the objects made with [new] live in a store indexed by address, and
      the methods of [myClass] read and write through their references;
    - [mexErrMsgTxt] and [mexErrMsgIdAndTxt] leave the MEX function at
      once: they are the error result of a state-and-error monad;
    - [mexPrintf] appends to a console. *)

From Stdlib Require Import ZArith Floats Ascii String.
From stdpp Require Import base option list gmap strings.

Open Scope string_scope.

(** ** The part of the MATLAB C API ([mex.h]) the program uses *)

(** An [mxArray], by class: a char row vector with its text, a double
    array with its dimensions, real data and (for a complex array)
    imaginary data, the two unsigned classes the bridge creates, and any
    other class. *)
Inductive mxArray : Type :=
| mxChar (text : string)
| mxDouble (dims : list nat) (pr : list float) (pi : option (list float))
| mxUint64 (dims : list nat) (data : list N)
| mxUint8 (dims : list nat) (data : list N)
| mxOther (dims : list nat).

Inductive mxClassID : Type := mxDOUBLE_CLASS | mxUINT8_CLASS | mxUINT64_CLASS.
Inductive mxComplexity : Type := mxREAL | mxCOMPLEX.

Definition mxGetDimensions (a : mxArray) : list nat :=
  match a with
  | mxChar text => [1; String.length text]
  | mxDouble dims _ _ => dims
  | mxUint64 dims _ => dims
  | mxUint8 dims _ => dims
  | mxOther dims => dims
  end.

Definition mxGetNumberOfDimensions (a : mxArray) : nat :=
  length (mxGetDimensions a).

(** Rows: the first dimension. *)
Definition mxGetM (a : mxArray) : nat :=
  match mxGetDimensions a with
  | [] => 0
  | m :: _ => m
  end.

(** Columns: the product of the remaining dimensions. *)
Definition mxGetN (a : mxArray) : nat :=
  match mxGetDimensions a with
  | [] => 0
  | _ :: rest => foldr Nat.mul 1 rest
  end.

Definition mxIsDouble (a : mxArray) : bool :=
  match a with
  | mxDouble _ _ _ => true
  | _ => false
  end.

(** The real data of a double array; [None] where the array holds no
    doubles to point at. *)
Definition mxGetPr (a : mxArray) : option (list float) :=
  match a with
  | mxDouble _ pr _ => Some pr
  | _ => None
  end.

(** The imaginary data: [None] is the NULL pointer of a real array. *)
Definition mxGetPi (a : mxArray) : option (list float) :=
  match a with
  | mxDouble _ _ pi => pi
  | _ => None
  end.

(** [mxGetString a buf buflen] copies the text of a char array and its
    terminating NUL into a buffer of [buflen] characters.  It returns 0
    ([Some] text here) when that fits, and 1 ([None]) when [a] is not a
    char array or the text would be cut. *)
Definition mxGetString (a : mxArray) (buflen : nat) : option string :=
  match a with
  | mxChar text =>
      if bool_decide (String.length text < buflen) then Some text else None
  | _ => None
  end.

(** [mxCreateNumericMatrix m n class complexity]: an [m] by [n] matrix
    filled with zeros. *)
Definition mxCreateNumericMatrix
    (m n : nat) (c : mxClassID) (k : mxComplexity) : mxArray :=
  match c with
  | mxDOUBLE_CLASS =>
      mxDouble [m; n] (replicate (m * n) 0%float)
        (match k with
         | mxREAL => None
         | mxCOMPLEX => Some (replicate (m * n) 0%float)
         end)
  | mxUINT8_CLASS => mxUint8 [m; n] (replicate (m * n) 0%N)
  | mxUINT64_CLASS => mxUint64 [m; n] (replicate (m * n) 0%N)
  end.

(** The C string a character buffer holds: its characters up to the
    first NUL. *)
Fixpoint c_str (s : string) : string :=
  match s with
  | EmptyString => EmptyString
  | String c rest =>
      if Ascii.eqb c "000"%char then EmptyString else String c (c_str rest)
  end.

(** [!strcmp(a, b)]: the comparison stops at the first NUL of either
    text. *)
Definition streq (a b : string) : bool := String.eqb (c_str a) (c_str b).

(** ** Errors, the console and the object store *)

(** The ways a call is left early.  The first two are the API's; the
    third is what the handle registry reports for a token that names no
    live object. *)
Inductive mexError : Type :=
| ErrMsgTxt (msg : string)
| ErrMsgIdAndTxt (id msg : string)
| ErrInvalidHandle.

(** A [mexPrintf] call: its format and its arguments.  Formats and
    messages are kept as the source spells them, escapes unexpanded. *)
Record printed : Type := Printf { format : string; values : list float }.

(** The class that is interfaced: [double valueR, valueI]. *)
Record myClass : Type := MyClass { valueR : float; valueI : float }.

(** What persists between two calls of the MEX function: the objects
    made with [new] (by address), the handle registry (identifier to the
    address of the object it owns), and what was printed. *)
Record world : Type := World {
  heap : gmap N myClass;
  heap_next : N;
  registry : gmap N N;
  registry_next : N;
  console : list printed
}.

Definition empty_world : world :=
  {| heap := ∅; heap_next := 0; registry := ∅; registry_next := 0;
     console := [] |}.

(** The result of a computation: a value, an error raised through the
    API, or an access C++ leaves undefined: a read or a store past the
    end of an array, a use of a dangling reference. *)
Inductive result (A : Type) : Type :=
| Ok (a : A)
| Raised (e : mexError)
| Undefined.
Arguments Ok {A} a.
Arguments Raised {A} e.
Arguments Undefined {A}.

Definition mex (A : Type) : Type := world → result A * world.

#[global] Instance mex_ret : MRet mex := λ A a w, (Ok a, w).

(** Effects made before an error stay made: the world at the point of
    failure is the world that is returned. *)
#[global] Instance mex_bind : MBind mex := λ A B k m w,
  match m w with
  | (Ok a, w') => k a w'
  | (Raised e, w') => (Raised e, w')
  | (Undefined, w') => (Undefined, w')
  end.

Definition raise {A} (e : mexError) : mex A := λ w, (Raised e, w).
Definition undefined {A} : mex A := λ w, (Undefined, w).

Definition mexErrMsgTxt {A} (msg : string) : mex A := raise (ErrMsgTxt msg).
Definition mexErrMsgIdAndTxt {A} (id msg : string) : mex A :=
  raise (ErrMsgIdAndTxt id msg).

(** [if (c) m;] *)
Definition when (c : bool) (m : mex unit) : mex unit :=
  if c then m else mret tt.

Definition mexPrintf (fmt : string) (args : list float) : mex unit := λ w,
  (Ok tt,
   {| heap := heap w; heap_next := heap_next w; registry := registry w;
      registry_next := registry_next w;
      console := console w ++ [Printf fmt args] |}).

(** [for (i = start; i < start + count; ++i) body] *)
Fixpoint for_range {St : Type} (start count : nat)
    (body : nat → St → mex St) (s : St) : mex St :=
  match count with
  | 0 => mret s
  | S count' => s' ← body start s; for_range (S start) count' body s'
  end.

(** [p[i]] for a data pointer [p] advanced by [off]. *)
Definition read_at (p : option (list float)) (i : nat) : mex float :=
  match p ≫= (λ l, l !! i) with
  | Some x => mret x
  | None => undefined
  end.

(** [p[i] = x]. *)
Definition write_at (p : option (list float)) (i : nat) (x : float)
    : mex (option (list float)) :=
  match p with
  | Some l => if bool_decide (i < length l) then mret (Some (<[i := x]> l))
              else undefined
  | None => undefined
  end.

(** [mxGetData]: the bytes of a uint8 array (the one class the program
    reaches its data through). *)
Definition mxGetData (a : mxArray) : option (list N) :=
  match a with
  | mxUint8 _ data => Some data
  | _ => None
  end.

(** [((int* )p)[i] = x] for a pointer [p] to bytes: an [int] takes four
    bytes, stored low byte first, and all four must lie inside the data
    [p] points to. *)
Definition write_int_at (p : option (list N)) (i : nat) (x : Z)
    : mex (option (list N)) :=
  match p with
  | Some bytes =>
      if bool_decide (4 * i + 4 ≤ length bytes)%nat
      then mret (Some (<[(4 * i + 3)%nat := Z.to_N ((x / 16777216) mod 256)]>
                      (<[(4 * i + 2)%nat := Z.to_N ((x / 65536) mod 256)]>
                      (<[(4 * i + 1)%nat := Z.to_N ((x / 256) mod 256)]>
                      (<[(4 * i)%nat := Z.to_N (x mod 256)]> bytes)))))
      else undefined
  | None => undefined
  end.

(** [prhs[i]]. *)
Definition arg (prhs : list mxArray) (i : nat) : mex mxArray :=
  match prhs !! i with
  | Some a => mret a
  | None => undefined
  end.

(** [new myClass(...)]: a fresh address holding the constructed value. *)
Definition new_myClass (v : myClass) : mex N := λ w,
  (Ok (heap_next w),
   {| heap := <[heap_next w := v]> (heap w);
      heap_next := heap_next w + 1;
      registry := registry w; registry_next := registry_next w;
      console := console w |}).

(** Reading and writing an object through a reference. *)
Definition deref (p : N) : mex myClass := λ w,
  match heap w !! p with
  | Some v => (Ok v, w)
  | None => (Undefined, w)
  end.

Definition store (p : N) (v : myClass) : mex unit := λ w,
  match heap w !! p with
  | Some _ =>
      (Ok tt,
       {| heap := <[p := v]> (heap w); heap_next := heap_next w;
          registry := registry w; registry_next := registry_next w;
          console := console w |})
  | None => (Undefined, w)
  end.

Definition get_valueR (p : N) : mex float := v ← deref p; mret (valueR v).
Definition get_valueI (p : N) : mex float := v ← deref p; mret (valueI v).
Definition set_valueR (p : N) (x : float) : mex unit :=
  v ← deref p; store p {| valueR := x; valueI := valueI v |}.
Definition set_valueI (p : N) (x : float) : mex unit :=
  v ← deref p; store p {| valueR := valueR v; valueI := x |}.

(** ** [myClass.hpp] *)

(** [myClass() : valueR(0.0), valueI(0.0)] *)
Definition myClass_default : myClass := {| valueR := 0; valueI := 0 |}.

(** [myClass(const myClass& a) : valueR(a.valueR), valueI(a.valueI)] *)
Definition myClass_copy (a : N) : mex myClass :=
  r ← get_valueR a; i ← get_valueI a; mret {| valueR := r; valueI := i |}.

(** [myClass(const mxArray* prhs)].  The two members start without a
    value ([None]); [pr] and [pi] advance together, by [off]. *)
Definition myClass_of_mxArray (prhs : mxArray) : mex myClass :=
  let m := mxGetM prhs in
  let n := mxGetN prhs in
  let pr := mxGetPr prhs in
  let pi := mxGetPi prhs in
  let complex := bool_decide (is_Some pi) in
  let valueI0 : option float := if complex then None else Some 0%float in
  when (bool_decide (m ≠ 1) || bool_decide (n ≠ 1))
    (mexErrMsgIdAndTxt "myClass:invalidSize" "Size [1 1] expected.");;
  '(vR, vI, _) ←
    for_range 0 n (λ j st,
      '(vR, vI, off) ←
        for_range 0 m (λ i '(vR, vI, off),
          x ← read_at pr (off + i);
          if complex
          then y ← read_at pi (off + i); mret (Some x, Some y, off)
          else mret (Some x, vI, off)) st;
      mret (vR, vI, off + m))
    (None, valueI0, 0);
  match vR, vI with
  | Some r, Some i => mret {| valueR := r; valueI := i |}
  | _, _ => undefined
  end.

(** [void display()] *)
Definition display (this : N) : mex unit :=
  i ← get_valueI this;
  if PrimFloat.eqb i 0
  then r ← get_valueR this; mexPrintf "%f\n" [r]
  else r ← get_valueR this; i ← get_valueI this;
       mexPrintf "%f + %fi\n" [r; i].

(** [mxArray* toDouble()] *)
Definition toDouble (this : N) : mex mxArray :=
  let m := 1 in
  let n := 1 in
  i ← get_valueI this;
  let complex := negb (PrimFloat.eqb i 0) in
  let plhs :=
    if complex then mxCreateNumericMatrix 1 1 mxDOUBLE_CLASS mxCOMPLEX
    else mxCreateNumericMatrix 1 1 mxDOUBLE_CLASS mxREAL in
  let pointerR := mxGetPr plhs in
  let pointerI := mxGetPi plhs in
  '(pR, pI, _) ←
    for_range 0 n (λ j st,
      '(pR, pI, off) ←
        for_range 0 m (λ i '(pR, pI, off),
          x ← get_valueR this;
          pR' ← write_at pR (off + i) x;
          if complex
          then y ← get_valueI this;
               pI' ← write_at pI (off + i) y;
               mret (pR', pI', off)
          else mret (pR', pI, off)) st;
      mret (pR, pI, off + m))
    (pointerR, pointerI, 0);
  match pR with
  | Some re => mret (mxDouble (mxGetDimensions plhs) re pI)
  | None => undefined
  end.

(** [myClass& operator+=(const myClass& b)] *)
Definition operator_plus_assign (this b : N) : mex N :=
  x ← get_valueR this; y ← get_valueR b; set_valueR this (x + y)%float;;
  x ← get_valueI this; y ← get_valueI b; set_valueI this (x + y)%float;;
  mret this.

(** [myClass operator+(const myClass& b)]: the result is a local object,
    returned by value. *)
Definition operator_plus (this b : N) : mex myClass :=
  let result := myClass_default in
  x ← get_valueR this; y ← get_valueR b;
  let result := {| valueR := (x + y)%float; valueI := valueI result |} in
  x ← get_valueI this; y ← get_valueI b;
  let result := {| valueR := valueR result; valueI := (x + y)%float |} in
  mret result.

(** [myClass& plus_new(const myClass& b)] *)
Definition plus_new (this b : N) : mex N :=
  result ← new_myClass myClass_default;
  x ← get_valueR this; y ← get_valueR b; set_valueR result (x + y)%float;;
  x ← get_valueI this; y ← get_valueI b; set_valueI result (x + y)%float;;
  mret result.

(** [myClass* plus_new_ptr(const myClass& b)] *)
Definition plus_new_ptr (this b : N) : mex N := plus_new this b.

(** ** The handle registry ([class_handle.hpp]) *)

(** Modelled from the spec: [class_handle.hpp], which defines
    [createMatlabIdFromObj], [createMatlabIdFromPtr],
    [recoverObjFromMatlabId], [destroyObject] and [checkValidity], is not
    among the sources.  The registry keeps its own mapping from a
    monotonically increasing identifier to the instance it owns (section
    4.1); the token handed to the host is a 64-bit numeric array of
    length 1 holding the identifier (section 6).  With a single value
    type the type tag of the token has one value and is left out. *)
Definition handle_token (id : N) : mxArray := mxUint64 [1; 1] [id].

(** Modelled from the spec: decoding a token; a value of any other shape
    or class names no entry. *)
Definition decode_token (a : mxArray) : option N :=
  match a with
  | mxUint64 [1; 1] [id] => Some id
  | _ => None
  end.

(** Modelled from the spec: [resolve], the instance a token names, if it
    is currently registered. *)
Definition resolve (w : world) (a : mxArray) : option N :=
  id ← decode_token a; registry w !! id.

(** Modelled from the spec: [register(value) -> Handle] takes ownership
    of a newly constructed instance, stores it under a freshly minted
    handle and returns the handle. *)
Definition createMatlabIdFromObj (obj : N) : mex mxArray := λ w,
  (Ok (handle_token (registry_next w)),
   {| heap := heap w; heap_next := heap_next w;
      registry := <[registry_next w := obj]> (registry w);
      registry_next := registry_next w + 1;
      console := console w |}).

(** Modelled from the spec: the same, from a pointer to the instance. *)
Definition createMatlabIdFromPtr (obj : N) : mex mxArray :=
  createMatlabIdFromObj obj.

(** Modelled from the spec: [resolve(handle) -> &Object | Error] fails
    with [InvalidHandle] unless the handle is currently registered. *)
Definition recoverObjFromMatlabId (a : mxArray) : mex N := λ w,
  match resolve w a with
  | Some obj => (Ok obj, w)
  | None => (Raised ErrInvalidHandle, w)
  end.

(** Modelled from the spec: [release(handle) -> () | Error] removes the
    entry and frees the owned instance; it fails with [InvalidHandle] if
    the handle is unknown or already released. *)
Definition destroyObject (a : mxArray) : mex unit := λ w,
  match decode_token a with
  | Some id =>
      match registry w !! id with
      | Some obj =>
          (Ok tt,
           {| heap := delete obj (heap w); heap_next := heap_next w;
              registry := delete id (registry w);
              registry_next := registry_next w;
              console := console w |})
      | None => (Raised ErrInvalidHandle, w)
      end
  | None => (Raised ErrInvalidHandle, w)
  end.

(** Modelled from the spec: [isValid(handle) -> bool], the probe that
    returns false rather than failing. *)
Definition checkValidity (a : mxArray) : mex bool := λ w,
  (Ok (bool_decide (is_Some (resolve w a))), w).

(** ** [myFavDouble_mex.cpp] *)

(** The three ways of [plus] to build the object that is returned. *)
Definition plus_with_plus_new (inst inst2 : N) : mex (option mxArray) :=
  result ← plus_new inst inst2;
  id ← createMatlabIdFromObj result;
  mret (Some id).

Definition plus_with_copy (inst inst2 : N) : mex (option mxArray) :=
  result ← (v ← myClass_copy inst; new_myClass v);
  operator_plus_assign result inst2;;
  id ← createMatlabIdFromObj result;
  mret (Some id).

Definition plus_with_ptr (inst inst2 : N) : mex (option mxArray) :=
  result ← plus_new_ptr inst inst2;
  id ← createMatlabIdFromPtr result;
  mret (Some id).

(** [void mexFunction(int nlhs, mxArray *plhs[], int nrhs, const mxArray
    *prhs[])].  [nrhs] is the length of [prhs]; the value returned is
    what the call leaves in [plhs[0]]. *)
Definition mexFunction (nlhs : Z) (prhs : list mxArray)
    : mex (option mxArray) :=
  let nrhs : Z := Z.of_nat (length prhs) in
  match (if bool_decide (nrhs < 1)%Z then None
         else a ← prhs !! 0; mxGetString a 64) with
  | None =>
      mexErrMsgTxt
        "First input should be a command string less than 64 characters long."
  | Some cmd =>
  if streq "new" cmd then
    when (bool_decide (nlhs ≠ 1%Z)) (mexErrMsgTxt "New: One output expected.");;
    if bool_decide (nrhs = 1%Z) then
      obj ← new_myClass myClass_default;
      id ← createMatlabIdFromObj obj;
      mret (Some id)
    else if bool_decide (nrhs = 2%Z) then
      a ← arg prhs 1;
      myClass_instance ← recoverObjFromMatlabId a;
      copiedInstance ← (v ← myClass_copy myClass_instance; new_myClass v);
      id ← createMatlabIdFromObj copiedInstance;
      mret (Some id)
    else mexErrMsgTxt "New: Too many arguments."
  else if streq "newFromMatlab" cmd then
    when (bool_decide (nrhs ≠ 2%Z))
      (mexErrMsgIdAndTxt "myClass:invalidNumInputs"
         "One input argument required.");;
    when (bool_decide (nlhs > 1)%Z)
      (mexErrMsgIdAndTxt "myClass:maxlhs" "Too many output arguments.");;
    a ← arg prhs 1;
    when (negb (mxIsDouble a))
      (mexErrMsgIdAndTxt "myClass:inputNotDouble"
         "Input argument must be of type double.");;
    when (bool_decide (mxGetNumberOfDimensions a ≠ 2))
      (mexErrMsgIdAndTxt "myClass:inputNot2D"
         "Input argument must be two dimensional\n");;
    obj ← (v ← myClass_of_mxArray a; new_myClass v);
    id ← createMatlabIdFromObj obj;
    mret (Some id)
  else if streq "delete" cmd then
    when (bool_decide (nrhs ≠ 2%Z))
      (mexErrMsgTxt "Delete: Wrong number of arguments.");;
    a ← arg prhs 1;
    destroyObject a;;
    mret (M := mex) (None : option mxArray)
  else
    when (bool_decide (nrhs < 2)%Z) (mexErrMsgTxt "Second input not found.");;
    a ← arg prhs 1;
    myClass_instance ← recoverObjFromMatlabId a;
    if streq "isValid" cmd then
      when (bool_decide (nlhs < 1)%Z || bool_decide (nrhs > 2)%Z)
        (mexErrMsgTxt "isValid: Unexpected arguments.");;
      let plhs0 := mxCreateNumericMatrix 1 1 mxUINT8_CLASS mxREAL in
      let outputMatrix := mxGetData plhs0 in
      checkValidity a ≫= λ validity : bool,
      stored ← (if validity then write_int_at outputMatrix 0 1
                else write_int_at outputMatrix 0 0);
      match stored with
      | Some bytes => mret (Some (mxUint8 (mxGetDimensions plhs0) bytes))
      | None => undefined
      end
    else if streq "display" cmd then
      display myClass_instance;;
      mret (M := mex) (None : option mxArray)
    else if streq "double" cmd then
      when (bool_decide (nlhs ≠ 1%Z))
        (mexErrMsgTxt "double: Unexpected arguments.");;
      out ← toDouble myClass_instance;
      mret (Some out)
    else
      a2 ← arg prhs 2;
      myClass_instance2 ← recoverObjFromMatlabId a2;
      if streq "plus" cmd then
        when (bool_decide (nlhs < 1)%Z || bool_decide (nrhs < 2)%Z)
          (mexErrMsgTxt "plus: Unexpected arguments.");;
        if true then plus_with_plus_new myClass_instance myClass_instance2
        else if false then plus_with_copy myClass_instance myClass_instance2
        else if false then plus_with_ptr myClass_instance myClass_instance2
        else mret (M := mex) (None : option mxArray)
      else mexErrMsgTxt "Command not recognized."
  end.

(** ** The error kinds of the specification *)

Inductive ErrorKind : Type :=
| InvalidHandle
| TypeMismatch
| ArityError
| UnrecognizedCommand
| InvalidArgument.

(** Which kind each error of the program is: a wrong count of inputs or
    of requested outputs is an [ArityError], malformed data an
    [InvalidArgument]. *)
Definition errorKind (e : mexError) : option ErrorKind :=
  match e with
  | ErrInvalidHandle => Some InvalidHandle
  | ErrMsgIdAndTxt id _ =>
      if streq id "myClass:invalidNumInputs" then Some ArityError
      else if streq id "myClass:maxlhs" then Some ArityError
      else if streq id "myClass:inputNotDouble" then Some InvalidArgument
      else if streq id "myClass:inputNot2D" then Some InvalidArgument
      else if streq id "myClass:invalidSize" then Some InvalidArgument
      else None
  | ErrMsgTxt msg =>
      if streq msg "Command not recognized." then Some UnrecognizedCommand
      else if streq msg "New: One output expected." then Some ArityError
      else if streq msg "New: Too many arguments." then Some ArityError
      else if streq msg "Delete: Wrong number of arguments."
      then Some ArityError
      else if streq msg "Second input not found." then Some ArityError
      else if streq msg "isValid: Unexpected arguments." then Some ArityError
      else if streq msg "double: Unexpected arguments." then Some ArityError
      else if streq msg "plus: Unexpected arguments." then Some ArityError
      else if streq msg
        "First input should be a command string less than 64 characters long."
      then Some InvalidArgument
      else None
  end.

(** The verbs of the dispatcher. *)
Definition verbs : list string :=
  ["new"; "newFromMatlab"; "delete"; "isValid"; "display"; "double"; "plus"].

(** The verb table of the specification: how many handle arguments each
    command that takes handles is given. *)
Definition handle_commands : list (string * nat) :=
  [("new", 1); ("delete", 1); ("isValid", 1); ("display", 1);
   ("double", 1); ("plus", 2)].

(** ** Vocabulary of the statements *)

(** A call fails with an error of kind [k] and leaves the world [w] as it
    was. *)
Definition fails_with (k : ErrorKind) (w : world)
    (r : result (option mxArray) * world) : Prop :=
  ∃ e, r = (Raised e, w) ∧ errorKind e = Some k.

(** The text of an error. *)
Definition message (e : mexError) : string :=
  match e with
  | ErrMsgTxt msg => msg
  | ErrMsgIdAndTxt _ msg => msg
  | ErrInvalidHandle => ""
  end.

(** A message names a verb when the verb occurs in it, letter case
    apart. *)
Definition lower (c : ascii) : ascii :=
  let n := nat_of_ascii c in
  if bool_decide (65 ≤ n)%nat && bool_decide (n ≤ 90)%nat
  then ascii_of_nat (n + 32) else c.

Fixpoint starts_with (verb msg : string) : bool :=
  match verb, msg with
  | EmptyString, _ => true
  | String c verb', String d msg' =>
      bool_decide (lower c = lower d) && starts_with verb' msg'
  | String _ _, EmptyString => false
  end.

Fixpoint names_verb (verb msg : string) : bool :=
  starts_with verb msg ||
  match msg with
  | EmptyString => false
  | String _ msg' => names_verb verb msg'
  end.

(** A call fails, without a side effect, with an error of kind [k] whose
    message names [verb]. *)
Definition fails_naming (k : ErrorKind) (verb : string) (w : world)
    (r : result (option mxArray) * world) : Prop :=
  ∃ e, r = (Raised e, w) ∧ errorKind e = Some k
       ∧ names_verb verb (message e) = true.

(** The registry never issued an identifier it has not counted, every
    entry owns an object that exists, and [new] never returned an address
    it has not counted. *)
Definition world_wf (w : world) : Prop :=
  map_Forall (λ id obj, (id < registry_next w)%N ∧ is_Some (heap w !! obj))
    (registry w)
  ∧ map_Forall (λ p _, (p < heap_next w)%N) (heap w).

#[global] Instance world_wf_dec w : Decision (world_wf w).
Proof. unfold world_wf. apply _. Defined.

(** The component-wise sum of two values. *)
Definition value_sum (a b : myClass) : myClass :=
  {| valueR := (valueR a + valueR b)%float;
     valueI := (valueI a + valueI b)%float |}.

Definition no_command_message : string :=
  "First input should be a command string less than 64 characters long.".

(** The worlds of the scenario of section 8: [new()] gives handle 0,
    [newFromMatlab((5.0, 2.0))] handle 1, [plus] of them handle 2; then
    handle 0 is deleted. *)
Definition after_new : world :=
  (mexFunction 1 [mxChar "new"] empty_world).2.

Definition after_newFromMatlab : world :=
  (mexFunction 1
     [mxChar "newFromMatlab"; mxDouble [1; 1] [5%float] (Some [2%float])]
     after_new).2.

Definition after_plus : world :=
  (mexFunction 1 [mxChar "plus"; handle_token 0; handle_token 1]
     after_newFromMatlab).2.

Definition after_delete : world :=
  (mexFunction 0 [mxChar "delete"; handle_token 0] after_plus).2.

(** The world after [new] made an object holding [v] and the registry
    took it. *)
Definition registered (w : world) (v : myClass) : world :=
  (createMatlabIdFromObj (heap_next w) (new_myClass v w).2).2.

(** The world after a [mexPrintf], and after the registry released the
    entry [id] and freed the object [obj] it owned. *)
Definition printed_world (w : world) (p : printed) : world :=
  (mexPrintf (format p) (values p) w).2.

Definition released (w : world) (id obj : N) : world :=
  {| heap := delete obj (heap w); heap_next := heap_next w;
     registry := delete id (registry w); registry_next := registry_next w;
     console := console w |}.

(** What one call may do to the world: nothing, register one new object,
    print one line, or release one entry. *)
Definition one_effect (w w' : world) : Prop :=
  w' = w
  ∨ (∃ v, w' = registered w v)
  ∨ (∃ p, w' = printed_world w p)
  ∨ (∃ id obj, registry w !! id = Some obj ∧ w' = released w id obj).

(** The invariant of the bridge: a well-formed world in which no object
    is owned by two entries. *)
Definition world_inv (w : world) : Prop :=
  world_wf w
  ∧ ∀ id1 id2 obj,
      registry w !! id1 = Some obj → registry w !! id2 = Some obj → id1 = id2.

(** The worlds the host can bring about: it starts from the empty one
    and calls the MEX function. *)
Inductive reachable : world → Prop :=
| reachable_empty : reachable empty_world
| reachable_call nlhs prhs w :
    reachable w → reachable (mexFunction nlhs prhs w).2.

(** A computation that leaves the world as it found it. *)
Definition pure_mex {A} (m : mex A) : Prop := ∀ w, (m w).2 = w.

(** What [toDouble] makes of a value, the 1x1 double array of a real
    part and an imaginary part that may be absent, and the line
    [display] prints for a value. *)
Definition exported (v : myClass) : mxArray :=
  mxDouble [1; 1] [valueR v]
    (if PrimFloat.eqb (valueI v) 0 then None else Some [valueI v]).

Definition scalar (x : float) (imag : option float) : mxArray :=
  mxDouble [1; 1] [x] ((λ y, [y]) <$> imag).

Definition display_line (v : myClass) : printed :=
  if PrimFloat.eqb (valueI v) 0 then Printf "%f\n" [valueR v]
  else Printf "%f + %fi\n" [valueR v; valueI v].

(** What one call may do, with the verb that does it and what it
    returns then: it leaves the world as it was (whatever it returns or
    raises), or registers one object and returns its handle, or prints
    one line, or releases one entry. *)
Definition call_outcome (prhs : list mxArray) (w : world)
    (r : result (option mxArray) * world) : Prop :=
  r.2 = w
  ∨ (∃ cmd v, prhs !! 0 = Some (mxChar cmd)
              ∧ c_str cmd ∈ ["new"; "newFromMatlab"; "plus"]
              ∧ r = (Ok (Some (handle_token (registry_next w))),
                     registered w v))
  ∨ (∃ cmd p, prhs !! 0 = Some (mxChar cmd) ∧ c_str cmd = "display"
              ∧ r = (Ok None, printed_world w p))
  ∨ (∃ cmd d id obj, prhs = [mxChar cmd; d] ∧ c_str cmd = "delete"
                     ∧ decode_token d = Some id
                     ∧ registry w !! id = Some obj
                     ∧ r = (Ok None, released w id obj)).

(** An array as the API makes them: a double array holds as many real
    elements, and as many imaginary ones if it is complex, as its
    dimensions say. *)
Definition mx_wf (a : mxArray) : Prop :=
  match a with
  | mxDouble dims pr pi =>
      length pr = foldr Nat.mul 1%nat dims
      ∧ ∀ l, pi = Some l → length l = foldr Nat.mul 1%nat dims
  | _ => True
  end.

(** ** Running the monad *)

Ltac mex_unfold :=
  unfold mexErrMsgTxt, mexErrMsgIdAndTxt, raise, undefined, when, arg,
    recoverObjFromMatlabId, checkValidity;
  unfold mbind, mex_bind, mret, mex_ret.

(** Closed side conditions, by evaluation. *)
Ltac by_compute :=
  first [ by vm_compute | by (eexists; vm_compute) | by (vm_compute; lia)
        | by repeat constructor ].

Lemma streq_neq a b : c_str a ≠ c_str b → streq a b = false.
Proof. intros H. unfold streq. by apply String.eqb_neq. Qed.

Lemma nrhs_cons (a : mxArray) args :
  Z.of_nat (length (a :: args)) = (1 + Z.of_nat (length args))%Z.
Proof. simpl length. lia. Qed.

Lemma command_read cmd args :
  (String.length cmd < 64)%nat →
  (if bool_decide (Z.of_nat (length (mxChar cmd :: args)) < 1)%Z then None
   else a ← (mxChar cmd :: args) !! 0; mxGetString a 64) = Some cmd.
Proof.
  intros H. rewrite bool_decide_eq_false_2 by (rewrite nrhs_cons; lia).
  simpl. by rewrite bool_decide_eq_true_2.
Qed.

Lemma unknown_verb_dispatch cmd :
  c_str cmd ∉ verbs →
  streq "new" cmd = false ∧ streq "newFromMatlab" cmd = false ∧
  streq "delete" cmd = false ∧ streq "isValid" cmd = false ∧
  streq "display" cmd = false ∧ streq "double" cmd = false ∧
  streq "plus" cmd = false.
Proof.
  intros H. unfold verbs in H. rewrite !not_elem_of_cons in H.
  repeat split; apply streq_neq; simpl; intros E; rewrite <- E in H;
    intuition congruence.
Qed.

Lemma frobnicate_unknown : "frobnicate" ∉ verbs.
Proof.
  unfold verbs. rewrite !not_elem_of_cons.
  repeat split; try discriminate. apply not_elem_of_nil.
Qed.

(** The scenario of section 8, call by call, up to the deletion. *)
Example scenario_outputs :
  (mexFunction 1 [mxChar "new"] empty_world).1
  = Ok (Some (handle_token 0))
  ∧ (mexFunction 1
       [mxChar "newFromMatlab"; mxDouble [1; 1] [5%float] (Some [2%float])]
       after_new).1
    = Ok (Some (handle_token 1))
  ∧ (mexFunction 1 [mxChar "plus"; handle_token 0; handle_token 1]
       after_newFromMatlab).1
    = Ok (Some (handle_token 2))
  ∧ (mexFunction 1 [mxChar "double"; handle_token 2] after_plus).1
    = Ok (Some (mxDouble [1; 1] [5%float] (Some [2%float])))
  ∧ (mexFunction 0 [mxChar "delete"; handle_token 0] after_plus).1
    = Ok None.
Proof. repeat split; by vm_compute. Qed.

(** The verb is read as [strcmp] reads it, up to the first NUL of the
    command text: the text "new", NUL, "x" is the verb [new]. *)
Example command_read_up_to_NUL :
  c_str (String "n" (String "e" (String "w" (String "000" "x")))) = "new"
  ∧ mexFunction 1
      [mxChar (String "n" (String "e" (String "w" (String "000" "x"))))]
      empty_world
    = mexFunction 1 [mxChar "new"] empty_world.
Proof. split; by vm_compute. Qed.

(** An [int] stored where four bytes are there, and where they are
    not. *)
Example write_int_at_bounds :
  write_int_at (Some [0; 0; 0; 0; 7]%N) 0 258 empty_world
  = (Ok (Some [2; 1; 0; 0; 7]%N), empty_world)
  ∧ write_int_at (Some [0%N]) 0 1 empty_world = (Undefined, empty_world).
Proof. split; by vm_compute. Qed.

Lemma world_wf_scenario :
  world_wf after_new ∧ world_wf after_newFromMatlab ∧ world_wf after_plus
  ∧ world_wf after_delete.
Proof. repeat apply conj; apply (bool_decide_unpack _); by vm_compute. Qed.

(** ** The command string *)

(** C10: a call with no argument, or whose first argument is not a char
    array of fewer than 64 characters, fails with the error about the
    command string and leaves the world untouched: no verb is
    dispatched, no handle resolved, nothing changed. *)
Theorem mexFunction_needs_command nlhs prhs w :
  (∀ text, prhs !! 0 = Some (mxChar text) → (64 ≤ String.length text)%nat) →
  mexFunction nlhs prhs w = (Raised (ErrMsgTxt no_command_message), w).
Proof.
  intros H. unfold mexFunction.
  destruct prhs as [|a rest]; [done|].
  rewrite bool_decide_eq_false_2 by (rewrite nrhs_cons; lia).
  destruct a as [text| | | |]; try done.
  simpl. rewrite bool_decide_eq_false_2; [done|].
  specialize (H text eq_refl). lia.
Qed.

Lemma mexFunction_needs_command_witness :
  mexFunction 1 [] after_plus
  = (Raised (ErrMsgTxt no_command_message), after_plus)
  ∧ mexFunction 1 [mxDouble [1; 1] [3%float] None; handle_token 1] after_plus
    = (Raised (ErrMsgTxt no_command_message), after_plus).
Proof.
  split; apply mexFunction_needs_command; intros text H; discriminate H.
Defined.

(** ** Unknown verbs *)

(** C2, as stated, fails: the unknown verb "frobnicate" called with no
    argument is stopped by the guard on the second input, an arity
    error, not UnrecognizedCommand. *)
Lemma unknown_verb_without_argument :
  ("frobnicate" ∉ verbs)
  ∧ mexFunction 1 [mxChar "frobnicate"] empty_world
    = (Raised (ErrMsgTxt "Second input not found."), empty_world)
  ∧ ¬ fails_with UnrecognizedCommand empty_world
        (mexFunction 1 [mxChar "frobnicate"] empty_world).
Proof.
  assert (E : mexFunction 1 [mxChar "frobnicate"] empty_world
              = (Raised (ErrMsgTxt "Second input not found."), empty_world))
    by reflexivity.
  split; [|split].
  - exact frobnicate_unknown.
  - exact E.
  - intros (e & He & Hk). rewrite E in He. injection He as <-.
    discriminate Hk.
Qed.

(** C2, amended: a command text of fewer than 64 characters whose verb
    (the text up to its first NUL, which is what the dispatcher
    compares) is outside the seven known ones never has a side effect,
    and fails with the arity error
    "Second input not found." when it is given no argument, with
    InvalidHandle when its first argument does not resolve or when the
    first does and a second one does not, and with "Command not
    recognized." when its first two arguments resolve. *)
Theorem unknown_verb cmd nlhs args w :
  c_str cmd ∉ verbs → (String.length cmd < 64)%nat →
  (args = [] →
   mexFunction nlhs (mxChar cmd :: args) w
   = (Raised (ErrMsgTxt "Second input not found."), w)) ∧
  (∀ a1 rest, args = a1 :: rest → resolve w a1 = None →
   mexFunction nlhs (mxChar cmd :: args) w = (Raised ErrInvalidHandle, w)) ∧
  (∀ a1 a2 rest, args = a1 :: a2 :: rest →
   is_Some (resolve w a1) → resolve w a2 = None →
   mexFunction nlhs (mxChar cmd :: args) w = (Raised ErrInvalidHandle, w)) ∧
  (∀ a1 a2 rest, args = a1 :: a2 :: rest →
   is_Some (resolve w a1) → is_Some (resolve w a2) →
   mexFunction nlhs (mxChar cmd :: args) w
   = (Raised (ErrMsgTxt "Command not recognized."), w)
   ∧ errorKind (ErrMsgTxt "Command not recognized.")
     = Some UnrecognizedCommand).
Proof.
  intros Hcmd Hlen.
  destruct (unknown_verb_dispatch cmd Hcmd)
    as (E1 & E2 & E3 & E4 & E5 & E6 & E7).
  unfold mexFunction. rewrite command_read by done.
  rewrite E1, E2, E3, E4, E5, E6, E7.
  split; [|split; [|split]].
  - intros ->. done.
  - intros a1 rest -> Hr. mex_unfold.
    rewrite bool_decide_eq_false_2 by (rewrite !nrhs_cons; lia).
    simpl. by rewrite Hr.
  - intros a1 a2 rest -> [o1 H1] H2. mex_unfold.
    rewrite bool_decide_eq_false_2 by (rewrite !nrhs_cons; lia).
    simpl. by rewrite H1, H2.
  - intros a1 a2 rest -> [o1 H1] [o2 H2]. mex_unfold.
    rewrite bool_decide_eq_false_2 by (rewrite !nrhs_cons; lia).
    simpl. by rewrite H1, H2.
Qed.

Lemma unknown_verb_witness :
  mexFunction 0 [mxChar "frobnicate"; handle_token 1; handle_token 2; mxOther []]
    after_plus
  = (Raised (ErrMsgTxt "Command not recognized."), after_plus)
  ∧ mexFunction 0 [mxChar "frobnicate"; handle_token 1; handle_token 9]
      after_plus
    = (Raised ErrInvalidHandle, after_plus).
Proof.
  pose proof frobnicate_unknown as Hv.
  assert (Hl : (String.length "frobnicate" < 64)%nat) by (simpl; lia).
  split.
  - destruct (unknown_verb "frobnicate" 0
                [handle_token 1; handle_token 2; mxOther []] after_plus Hv Hl)
      as (_ & _ & _ & H).
    apply (H _ _ [mxOther []] eq_refl); by_compute.
  - destruct (unknown_verb "frobnicate" 0 [handle_token 1; handle_token 9]
                after_plus Hv Hl) as (_ & _ & H & _).
    apply (H _ _ [] eq_refl); by_compute.
Defined.

(** ** Handles that do not resolve *)

(** Reading the verb of a call and taking the branch of the dispatcher
    that it selects. *)
Ltac dispatch :=
  unfold mexFunction;
  rewrite command_read by (simpl; lia);
  repeat match goal with
    | |- context [streq ?a ?b] =>
        let v := eval vm_compute in (streq a b) in
        change (streq a b) with v
    end;
  cbv iota.

Lemma destroyObject_dead a w :
  resolve w a = None → destroyObject a w = (Raised ErrInvalidHandle, w).
Proof.
  unfold resolve, destroyObject. destruct (decode_token a) as [id|]; simpl.
  - by intros ->.
  - done.
Qed.

Lemma dead_handle_first cmd nlhs a rest w :
  (String.length cmd < 64)%nat →
  streq "new" cmd = false → streq "newFromMatlab" cmd = false →
  streq "delete" cmd = false →
  resolve w a = None →
  mexFunction nlhs (mxChar cmd :: a :: rest) w = (Raised ErrInvalidHandle, w).
Proof.
  intros Hlen E1 E2 E3 Hr. unfold mexFunction.
  rewrite command_read by done. rewrite E1, E2, E3. mex_unfold.
  rewrite bool_decide_eq_false_2 by (rewrite !nrhs_cons; lia).
  simpl. by rewrite Hr.
Qed.

(** C3: for each command of the verb table that takes handles, called
    with the arguments the table gives it (and, for [new], with the one
    output it returns), a handle argument that does not resolve aborts
    the call with InvalidHandle and leaves the world as it was; so the
    registry has the size it had. *)
Theorem invalid_handle_aborts cmd n nlhs args w :
  (cmd, n) ∈ handle_commands → length args = n →
  (cmd = "new" → nlhs = 1%Z) →
  (∃ a, a ∈ args ∧ resolve w a = None) →
  mexFunction nlhs (mxChar cmd :: args) w = (Raised ErrInvalidHandle, w)
  ∧ size (registry (mexFunction nlhs (mxChar cmd :: args) w).2)
    = size (registry w).
Proof.
  intros Hcmd Hlen Hnew (a & Ha & Hr).
  cut (mexFunction nlhs (mxChar cmd :: args) w = (Raised ErrInvalidHandle, w)).
  { intros ->. done. }
  unfold handle_commands in Hcmd.
  repeat (apply elem_of_cons in Hcmd as [Hcmd|Hcmd];
          [injection Hcmd as -> ->|]);
    [..|by apply elem_of_nil in Hcmd].
  - (* new *)
    destruct args as [|a' [|]]; try discriminate Hlen.
    apply list_elem_of_singleton in Ha as <-.
    rewrite (Hnew eq_refl). dispatch. mex_unfold. simpl.
    by rewrite Hr.
  - (* delete *)
    destruct args as [|a' [|]]; try discriminate Hlen.
    apply list_elem_of_singleton in Ha as <-.
    dispatch. mex_unfold. simpl.
    by rewrite (destroyObject_dead _ _ Hr).
  - (* isValid *)
    destruct args as [|a' [|]]; try discriminate Hlen.
    apply list_elem_of_singleton in Ha as <-.
    apply dead_handle_first; first [done | by_compute].
  - (* display *)
    destruct args as [|a' [|]]; try discriminate Hlen.
    apply list_elem_of_singleton in Ha as <-.
    apply dead_handle_first; first [done | by_compute].
  - (* double *)
    destruct args as [|a' [|]]; try discriminate Hlen.
    apply list_elem_of_singleton in Ha as <-.
    apply dead_handle_first; first [done | by_compute].
  - (* plus *)
    destruct args as [|a1 [|a2 [|]]]; try discriminate Hlen.
    destruct (resolve w a1) as [o1|] eqn:H1;
      [|apply dead_handle_first; first [done | by_compute]].
    assert (resolve w a2 = None) as H2.
    { apply elem_of_cons in Ha as [->|Ha]; [congruence|].
      by apply list_elem_of_singleton in Ha as <-. }
    dispatch. mex_unfold. simpl. by rewrite H1, H2.
Qed.

Lemma invalid_handle_aborts_witness :
  mexFunction 1 [mxChar "plus"; handle_token 1; handle_token 0] after_delete
  = (Raised ErrInvalidHandle, after_delete)
  ∧ size (registry
            (mexFunction 1 [mxChar "plus"; handle_token 1; handle_token 0]
               after_delete).2)
    = size (registry after_delete).
Proof.
  apply (invalid_handle_aborts "plus" 2 1 [handle_token 1; handle_token 0]
           after_delete).
  - by_compute.
  - reflexivity.
  - discriminate.
  - exists (handle_token 0). split; by_compute.
Defined.

(** ** The [isValid] command *)

(** The store of the answer: a four-byte [int] written to the one byte
    of the 1x1 uint8 array, whichever the answer. *)
Lemma isValid_store_overruns (validity : bool) w :
  (if validity
   then write_int_at
          (mxGetData (mxCreateNumericMatrix 1 1 mxUINT8_CLASS mxREAL)) 0 1
   else write_int_at
          (mxGetData (mxCreateNumericMatrix 1 1 mxUINT8_CLASS mxREAL)) 0 0) w
  = (Undefined, w).
Proof. by destruct validity. Qed.

(** C1: the probe [checkValidity] answers false for the released handle
    0, but the [isValid] command never gets to call it: the dispatcher
    resolves the handle first and raises InvalidHandle.  For the live
    handle 1 the command gets to the store of its answer, which runs
    past the one byte of the array; and whatever the call, the command
    never returns an answer, so it never answers false. *)
Theorem isValid_raises_on_released_handle :
  checkValidity (handle_token 0) after_delete = (Ok false, after_delete)
  ∧ mexFunction 1 [mxChar "isValid"; handle_token 0] after_delete
    = (Raised ErrInvalidHandle, after_delete)
  ∧ (mexFunction 1 [mxChar "isValid"; handle_token 1] after_delete).1
    = Undefined
  ∧ ∀ nlhs args w,
      match (mexFunction nlhs (mxChar "isValid" :: args) w).1 with
      | Ok answer => False
      | Raised _ | Undefined => True
      end.
Proof.
  split; [by vm_compute|]. split; [by vm_compute|]. split; [by vm_compute|].
  intros nlhs args w. dispatch. mex_unfold.
  case_bool_decide; [done|].
  destruct args as [|a rest]; [simpl length in *; lia|].
  simpl. destruct (resolve w a) as [obj|] eqn:Hr; [|done].
  destruct (_ || _); [done|]. cbv beta iota.
  by rewrite isValid_store_overruns.
Qed.

(** ** Argument counts *)

(** C6, as stated, fails twice: [isValid] called with no argument is
    refused by the guard all one-handle verbs share, whose message names
    no verb; and [display] called with a second argument is not refused
    at all: it prints. *)
Lemma wrong_count_not_refused_by_name :
  mexFunction 1 [mxChar "isValid"] after_plus
  = (Raised (ErrMsgTxt "Second input not found."), after_plus)
  ∧ names_verb "isValid" "Second input not found." = false
  ∧ (mexFunction 0 [mxChar "display"; handle_token 2; handle_token 2]
       after_plus).1 = Ok None
  ∧ console
      (mexFunction 0 [mxChar "display"; handle_token 2; handle_token 2]
         after_plus).2
    = (console after_plus ++ [Printf "%f + %fi\n" [5%float; 2%float]])%list.
Proof. repeat split; by vm_compute. Qed.

(** C6, amended: a wrong number of arguments is refused with an
    ArityError, before any effect, for [new] with more than one argument
    and [delete] with other than one (the message names the verb), for
    [newFromMatlab] with other than one (the error names the class), for
    [isValid], [display], [double] and [plus] with none (the message
    names no verb), and for [isValid] with more than one once the first
    resolved (the message names the verb). *)
Theorem wrong_argument_count nlhs args w :
  ((2 ≤ length args)%nat →
   fails_naming ArityError "new" w
     (mexFunction nlhs (mxChar "new" :: args) w)) ∧
  (length args ≠ 1%nat →
   fails_naming ArityError "delete" w
     (mexFunction nlhs (mxChar "delete" :: args) w)) ∧
  (length args ≠ 1%nat →
   mexFunction nlhs (mxChar "newFromMatlab" :: args) w
   = (Raised (ErrMsgIdAndTxt "myClass:invalidNumInputs"
               "One input argument required."), w)
   ∧ errorKind (ErrMsgIdAndTxt "myClass:invalidNumInputs"
                  "One input argument required.") = Some ArityError) ∧
  (∀ cmd, cmd ∈ ["isValid"; "display"; "double"; "plus"] →
   mexFunction nlhs [mxChar cmd] w
   = (Raised (ErrMsgTxt "Second input not found."), w)
   ∧ errorKind (ErrMsgTxt "Second input not found.") = Some ArityError) ∧
  (∀ a, (2 ≤ length args)%nat → args !! 0 = Some a →
   is_Some (resolve w a) →
   fails_naming ArityError "isValid" w
     (mexFunction nlhs (mxChar "isValid" :: args) w)).
Proof.
  split; [|split; [|split; [|split]]].
  - intros Hlen. dispatch. mex_unfold.
    case_bool_decide.
    + by exists (ErrMsgTxt "New: One output expected.").
    + rewrite nrhs_cons. rewrite !bool_decide_eq_false_2 by lia.
      by exists (ErrMsgTxt "New: Too many arguments.").
  - intros Hlen. dispatch. mex_unfold.
    rewrite nrhs_cons. rewrite bool_decide_eq_true_2 by lia.
    by exists (ErrMsgTxt "Delete: Wrong number of arguments.").
  - intros Hlen. dispatch. mex_unfold.
    rewrite nrhs_cons. by rewrite bool_decide_eq_true_2 by lia.
  - intros cmd Hcmd.
    repeat (apply elem_of_cons in Hcmd as [->|Hcmd]; [by vm_compute|]).
    by apply elem_of_nil in Hcmd.
  - intros a Hlen Ha [obj Hr]. dispatch. mex_unfold.
    destruct args as [|a' rest]; [discriminate Ha|].
    injection Ha as ->. rewrite !nrhs_cons. simpl in Hlen.
    rewrite bool_decide_eq_false_2 by lia.
    simpl. rewrite Hr.
    rewrite (bool_decide_eq_true_2 (_ > 2)%Z) by lia.
    rewrite orb_true_r.
    by exists (ErrMsgTxt "isValid: Unexpected arguments.").
Qed.

Lemma wrong_argument_count_witness :
  fails_naming ArityError "new" after_plus
    (mexFunction 1 [mxChar "new"; handle_token 1; handle_token 2] after_plus)
  ∧ fails_naming ArityError "delete" after_plus
      (mexFunction 0 [mxChar "delete"] after_plus)
  ∧ fails_naming ArityError "isValid" after_plus
      (mexFunction 1 [mxChar "isValid"; handle_token 1; handle_token 2]
         after_plus).
Proof.
  split; [|split].
  - apply (wrong_argument_count 1 [handle_token 1; handle_token 2]
             after_plus). simpl. lia.
  - apply (wrong_argument_count 0 [] after_plus). simpl. lia.
  - apply (wrong_argument_count 1 [handle_token 1; handle_token 2]
             after_plus) with (a := handle_token 1);
      [simpl; lia | reflexivity | by_compute].
Defined.

(** ** Construction from raw data, and export *)

Lemma get_valueR_ok w p v :
  heap w !! p = Some v → get_valueR p w = (Ok (valueR v), w).
Proof. intros H. unfold get_valueR, deref. mex_unfold. by rewrite H. Qed.

Lemma get_valueI_ok w p v :
  heap w !! p = Some v → get_valueI p w = (Ok (valueI v), w).
Proof. intros H. unfold get_valueI, deref. mex_unfold. by rewrite H. Qed.

(** C5: [newFromMatlab], asked for at most one output and given one
    argument whose shape is not 1x1, fails with an InvalidArgument error
    and leaves the world as it was: nothing is registered and no handle
    is returned. *)
Theorem newFromMatlab_rejects_non_scalar nlhs a w :
  (nlhs ≤ 1)%Z → mxGetDimensions a ≠ [1; 1] →
  fails_with InvalidArgument w
    (mexFunction nlhs [mxChar "newFromMatlab"; a] w).
Proof.
  intros Hnlhs Hdims. dispatch. mex_unfold. simpl.
  rewrite bool_decide_eq_false_2 by lia.
  destruct (mxIsDouble a) eqn:Hd; simpl.
  2: { by exists (ErrMsgIdAndTxt "myClass:inputNotDouble"
                   "Input argument must be of type double."). }
  case_bool_decide as Hnd; simpl.
  { by exists (ErrMsgIdAndTxt "myClass:inputNot2D"
                 "Input argument must be two dimensional\n"). }
  unfold mxGetNumberOfDimensions in Hnd.
  destruct (mxGetDimensions a) as [|m [|n [|]]] eqn:Ed;
    try (simpl in Hnd; lia).
  unfold myClass_of_mxArray, mxGetM, mxGetN. rewrite Ed. mex_unfold. simpl.
  assert (bool_decide (m ≠ 1%nat) || bool_decide (n * 1 ≠ 1)%nat = true)
    as ->.
  { apply orb_true_iff.
    destruct (decide (m = 1%nat)) as [->|];
      [right|left; by apply bool_decide_eq_true_2].
    apply bool_decide_eq_true_2. intros Hn. apply Hdims.
    f_equal. f_equal. lia. }
  by exists (ErrMsgIdAndTxt "myClass:invalidSize" "Size [1 1] expected.").
Qed.

Lemma newFromMatlab_rejects_non_scalar_witness :
  fails_with InvalidArgument after_new
    (mexFunction 1
       [mxChar "newFromMatlab";
        mxDouble [2; 3]
          [1%float; 2%float; 3%float; 4%float; 5%float; 6%float] None]
       after_new).
Proof.
  apply newFromMatlab_rejects_non_scalar; [lia | discriminate].
Defined.

(** C7: a value whose imaginary part compares equal to zero is exported
    as a real 1x1 array, its imaginary component absent; a real 1x1 array
    holding [x] constructs the value [x + 0i]; and so constructing from
    (3.0, absent) and exporting gives (3.0, absent) again. *)
Theorem real_only_round_trip :
  (∀ w this v,
     heap w !! this = Some v → PrimFloat.eqb (valueI v) 0 = true →
     toDouble this w = (Ok (mxDouble [1; 1] [valueR v] None), w)) ∧
  (∀ w x,
     myClass_of_mxArray (mxDouble [1; 1] [x] None) w
     = (Ok {| valueR := x; valueI := 0 |}, w)) ∧
  (∀ w,
     (v ← myClass_of_mxArray (mxDouble [1; 1] [3%float] None);
      this ← new_myClass v;
      toDouble this) w
     = (Ok (mxDouble [1; 1] [3%float] None),
        (new_myClass {| valueR := 3; valueI := 0 |} w).2)).
Proof.
  assert (∀ w this v,
    heap w !! this = Some v → PrimFloat.eqb (valueI v) 0 = true →
    toDouble this w = (Ok (mxDouble [1; 1] [valueR v] None), w)) as Hexport.
  { intros w this v Hv Hz. unfold toDouble. mex_unfold.
    rewrite (get_valueI_ok _ _ _ Hv), Hz. simpl. mex_unfold.
    by rewrite (get_valueR_ok _ _ _ Hv). }
  split; [exact Hexport|]. split; [done|].
  intros w. mex_unfold. simpl.
  rewrite (Hexport _ _ {| valueR := 3; valueI := 0 |}); [done| |done].
  simpl. apply lookup_insert_eq.
Qed.

Lemma real_only_round_trip_witness :
  toDouble 0 after_new = (Ok (mxDouble [1; 1] [0%float] None), after_new).
Proof.
  apply (proj1 real_only_round_trip after_new 0%N myClass_default);
    reflexivity.
Defined.

(** ** Addition *)

Lemma world_wf_fresh_object w p v :
  world_wf w → heap w !! p = Some v → p ≠ heap_next w.
Proof.
  intros [_ Hheap] Hp ->. apply Hheap in Hp. simpl in Hp. lia.
Qed.

Lemma world_wf_owned w id obj :
  world_wf w → registry w !! id = Some obj →
  id ≠ registry_next w ∧ obj ≠ heap_next w ∧ is_Some (heap w !! obj).
Proof.
  intros Hwf Hid. pose proof Hwf as [Hreg _].
  apply Hreg in Hid as [Hlt [v Hv]]. split; [lia|]. split; [|by eexists].
  by eapply world_wf_fresh_object.
Qed.

(** Reads of the store after writes, one at a time. *)
Ltac heap_steps :=
  repeat first
    [ rewrite lookup_insert_eq
    | rewrite lookup_insert_ne by done
    | match goal with
      | H : heap _ !! _ = Some _ |- _ => rewrite H
      end
    | progress simpl ].

(** The three functions that allocate their result leave the same
    world: the one [new] leaves when it constructs the sum directly. *)
Lemma plus_new_run w a b va vb :
  a ≠ heap_next w → b ≠ heap_next w →
  heap w !! a = Some va → heap w !! b = Some vb →
  plus_new a b w = new_myClass (value_sum va vb) w.
Proof.
  intros Ha Hb Hva Hvb.
  unfold plus_new, set_valueR, set_valueI, get_valueR, get_valueI, deref,
    store, new_myClass.
  mex_unfold. heap_steps.
  rewrite !insert_insert_eq. done.
Qed.

Lemma copy_then_plus_assign_run w a b va vb :
  a ≠ heap_next w → b ≠ heap_next w →
  heap w !! a = Some va → heap w !! b = Some vb →
  (c ← (v ← myClass_copy a; new_myClass v); operator_plus_assign c b) w
  = new_myClass (value_sum va vb) w.
Proof.
  intros Ha Hb Hva Hvb.
  unfold operator_plus_assign, myClass_copy, set_valueR, set_valueI,
    get_valueR, get_valueI, deref, store, new_myClass.
  mex_unfold. heap_steps.
  rewrite !insert_insert_eq. done.
Qed.

Lemma operator_plus_run w a b va vb :
  heap w !! a = Some va → heap w !! b = Some vb →
  operator_plus a b w = (Ok (value_sum va vb), w).
Proof.
  intros Hva Hvb. unfold operator_plus. mex_unfold.
  rewrite (get_valueR_ok _ _ _ Hva), (get_valueR_ok _ _ _ Hvb),
    (get_valueI_ok _ _ _ Hva), (get_valueI_ok _ _ _ Hvb). done.
Qed.

(** Associativity of sequencing, to run a command step by step. *)
Lemma mex_bind_assoc {A B C} (m : mex A) (k : A → mex B) (k' : B → mex C) w :
  ((m ≫= k) ≫= k') w = (m ≫= (λ a, k a ≫= k')) w.
Proof. mex_unfold. by destruct (m w) as [[?| |] ?]. Qed.

Lemma mex_bind_run {A B} (m : mex A) (k : A → mex B) w a w' :
  m w = (Ok a, w') → (m ≫= k) w = k a w'.
Proof. intros H. mex_unfold. by rewrite H. Qed.

Lemma plus_with_plus_new_run w a b va vb :
  a ≠ heap_next w → b ≠ heap_next w →
  heap w !! a = Some va → heap w !! b = Some vb →
  plus_with_plus_new a b w
  = (Ok (Some (handle_token (registry_next w))),
     (createMatlabIdFromObj (heap_next w)
        (new_myClass (value_sum va vb) w).2).2).
Proof.
  intros Ha Hb Hva Hvb. unfold plus_with_plus_new.
  rewrite (mex_bind_run _ _ _ _ _ (plus_new_run _ _ _ _ _ Ha Hb Hva Hvb)).
  done.
Qed.

Lemma plus_with_copy_run w a b va vb :
  a ≠ heap_next w → b ≠ heap_next w →
  heap w !! a = Some va → heap w !! b = Some vb →
  plus_with_copy a b w
  = (Ok (Some (handle_token (registry_next w))),
     (createMatlabIdFromObj (heap_next w)
        (new_myClass (value_sum va vb) w).2).2).
Proof.
  intros Ha Hb Hva Hvb.
  unfold plus_with_copy, operator_plus_assign, myClass_copy, set_valueR,
    set_valueI, get_valueR, get_valueI, deref, store, new_myClass,
    createMatlabIdFromObj.
  mex_unfold. heap_steps.
  rewrite !insert_insert_eq. done.
Qed.

(** C9: for two objects [a] and [b] of a well-formed world, [plus_new],
    [plus_new_ptr] and copy-construction followed by [operator+=] return
    the same new object and leave the same world, in which that object
    holds the component-wise sum and [a] and [b] hold what they held;
    [operator+] returns the same sum by value and changes nothing.  The
    three variants of the [plus] command therefore coincide. *)
Theorem additions_agree w a b va vb :
  world_wf w → heap w !! a = Some va → heap w !! b = Some vb →
  let w' := (new_myClass (value_sum va vb) w).2 in
  plus_new a b w = (Ok (heap_next w), w') ∧
  plus_new_ptr a b w = (Ok (heap_next w), w') ∧
  (c ← (v ← myClass_copy a; new_myClass v); operator_plus_assign c b) w
  = (Ok (heap_next w), w') ∧
  operator_plus a b w = (Ok (value_sum va vb), w) ∧
  heap w' !! heap_next w = Some (value_sum va vb) ∧
  heap w' !! a = Some va ∧ heap w' !! b = Some vb ∧
  plus_with_copy a b w = plus_with_plus_new a b w ∧
  plus_with_ptr a b w = plus_with_plus_new a b w.
Proof.
  intros Hwf Hva Hvb w'.
  pose proof (world_wf_fresh_object _ _ _ Hwf Hva) as Ha.
  pose proof (world_wf_fresh_object _ _ _ Hwf Hvb) as Hb.
  pose proof (plus_new_run _ _ _ _ _ Ha Hb Hva Hvb) as Hnew.
  pose proof (copy_then_plus_assign_run _ _ _ _ _ Ha Hb Hva Hvb) as Hcopy.
  repeat split.
  - by rewrite Hnew.
  - unfold plus_new_ptr. by rewrite Hnew.
  - by rewrite Hcopy.
  - by apply operator_plus_run.
  - apply lookup_insert_eq.
  - subst w'. simpl. by rewrite lookup_insert_ne.
  - subst w'. simpl. by rewrite lookup_insert_ne.
  - by rewrite (plus_with_copy_run _ _ _ _ _ Ha Hb Hva Hvb),
      (plus_with_plus_new_run _ _ _ _ _ Ha Hb Hva Hvb).
Qed.

Lemma additions_agree_witness :
  plus_new 0 1 after_newFromMatlab
  = (Ok 2%N,
     (new_myClass {| valueR := 5; valueI := 2 |} after_newFromMatlab).2)
  ∧ operator_plus 0 1 after_newFromMatlab
    = (Ok {| valueR := 5; valueI := 2 |}, after_newFromMatlab).
Proof.
  assert (Hwf : world_wf after_newFromMatlab) by apply world_wf_scenario.
  assert (Ha : heap after_newFromMatlab !! 0%N
               = Some {| valueR := 0; valueI := 0 |}) by (by vm_compute).
  assert (Hb : heap after_newFromMatlab !! 1%N
               = Some {| valueR := 5; valueI := 2 |}) by (by vm_compute).
  destruct (additions_agree after_newFromMatlab 0 1 _ _ Hwf Ha Hb)
    as (H1 & _ & _ & H4 & _).
  split; [exact H1 | exact H4].
Defined.

(** ** Registering a new object *)

Lemma fresh_token_unresolved w :
  world_wf w → resolve w (handle_token (registry_next w)) = None.
Proof.
  intros [Hreg _]. simpl.
  destruct (registry w !! registry_next w) as [obj|] eqn:E; [|done].
  apply Hreg in E as [E _]. lia.
Qed.

Lemma registered_resolve_new w v :
  resolve (registered w v) (handle_token (registry_next w))
  = Some (heap_next w).
Proof. simpl. apply lookup_insert_eq. Qed.

Lemma registered_heap_new w v :
  heap (registered w v) !! heap_next w = Some v.
Proof. simpl. apply lookup_insert_eq. Qed.

Lemma registered_resolve_old w v a obj :
  world_wf w → resolve w a = Some obj →
  resolve (registered w v) a = Some obj.
Proof.
  intros Hwf. unfold resolve. destruct (decode_token a) as [id|]; [|done].
  simpl. intros Hid.
  destruct (world_wf_owned _ _ _ Hwf Hid) as (Hne & _ & _).
  by rewrite lookup_insert_ne.
Qed.

Lemma registered_heap_old w v p x :
  world_wf w → heap w !! p = Some x → heap (registered w v) !! p = Some x.
Proof.
  intros Hwf Hp. simpl. rewrite lookup_insert_ne; [done|].
  intros <-. by eapply world_wf_fresh_object.
Qed.

Lemma registered_wf w v : world_wf w → world_wf (registered w v).
Proof.
  intros [Hreg Hheap]. split; simpl.
  - apply map_Forall_insert_2.
    + split; [lia|]. rewrite lookup_insert_eq. by eexists.
    + intros id obj Hid. apply Hreg in Hid as [Hlt [x Hx]].
      split; [lia|]. exists x. rewrite lookup_insert_ne; [done|].
      intros <-. apply Hheap in Hx. simpl in Hx. lia.
  - apply map_Forall_insert_2; [lia|].
    intros p x Hp. apply Hheap in Hp. simpl in Hp. lia.
Qed.

Lemma token_differs w a a' obj :
  resolve w a = None → resolve w a' = Some obj → a ≠ a'.
Proof. intros Ha Ha' <-. congruence. Qed.

(** C4: in a well-formed world, [plus] asked for its output and given two
    handles that resolve returns a handle that named nothing before and
    differs from both; it resolves to an object holding the
    component-wise sum of the two values, and the two handles still
    resolve to the same objects, holding the same values. *)
Theorem plus_registers_the_sum nlhs w a1 a2 o1 o2 v1 v2 :
  world_wf w → (1 ≤ nlhs)%Z →
  resolve w a1 = Some o1 → resolve w a2 = Some o2 →
  heap w !! o1 = Some v1 → heap w !! o2 = Some v2 →
  ∃ h3 o3 w',
    mexFunction nlhs [mxChar "plus"; a1; a2] w = (Ok (Some h3), w') ∧
    h3 ≠ a1 ∧ h3 ≠ a2 ∧ resolve w h3 = None ∧
    resolve w' h3 = Some o3 ∧ heap w' !! o3 = Some (value_sum v1 v2) ∧
    resolve w' a1 = Some o1 ∧ heap w' !! o1 = Some v1 ∧
    resolve w' a2 = Some o2 ∧ heap w' !! o2 = Some v2 ∧
    world_wf w'.
Proof.
  intros Hwf Hnlhs H1 H2 Hv1 Hv2.
  pose proof (fresh_token_unresolved _ Hwf) as Hfresh.
  exists (handle_token (registry_next w)), (heap_next w),
    (registered w (value_sum v1 v2)).
  split.
  { dispatch. mex_unfold. simpl. rewrite H1, H2.
    rewrite bool_decide_eq_false_2 by lia. simpl.
    apply plus_with_plus_new_run; try done;
      by eapply world_wf_fresh_object. }
  split; [by eapply token_differs|]. split; [by eapply token_differs|].
  split; [done|].
  split; [apply registered_resolve_new|].
  split; [apply registered_heap_new|].
  split; [by apply registered_resolve_old|].
  split; [by apply registered_heap_old|].
  split; [by apply registered_resolve_old|].
  split; [by apply registered_heap_old|].
  by apply registered_wf.
Qed.

Lemma plus_registers_the_sum_witness :
  ∃ h3 o3 w',
    mexFunction 1 [mxChar "plus"; handle_token 0; handle_token 1]
      after_newFromMatlab = (Ok (Some h3), w') ∧
    h3 ≠ handle_token 0 ∧ h3 ≠ handle_token 1 ∧
    resolve after_newFromMatlab h3 = None ∧
    resolve w' h3 = Some o3 ∧
    heap w' !! o3
    = Some (value_sum {| valueR := 0; valueI := 0 |}
              {| valueR := 5; valueI := 2 |}) ∧
    resolve w' (handle_token 0) = Some 0%N ∧
    heap w' !! 0%N = Some {| valueR := 0; valueI := 0 |} ∧
    resolve w' (handle_token 1) = Some 1%N ∧
    heap w' !! 1%N = Some {| valueR := 5; valueI := 2 |} ∧
    world_wf w'.
Proof.
  apply plus_registers_the_sum;
    [apply world_wf_scenario | lia | by vm_compute ..].
Defined.

(** C8: in a well-formed world, [new] asked for its output and given no
    argument returns a handle that named nothing before and now resolves
    to an object holding 0+0i; given one handle that resolves, it
    returns such a handle, different from the one given, that resolves
    to another object holding the same value, while the handle given
    still resolves to its object, unchanged. *)
Theorem new_registers w :
  world_wf w →
  let h := handle_token (registry_next w) in
  (∃ w' obj,
     mexFunction 1 [mxChar "new"] w = (Ok (Some h), w') ∧
     resolve w h = None ∧ resolve w' h = Some obj ∧
     heap w' !! obj = Some {| valueR := 0; valueI := 0 |} ∧
     world_wf w') ∧
  (∀ a o v,
     resolve w a = Some o → heap w !! o = Some v →
     ∃ w' obj,
       mexFunction 1 [mxChar "new"; a] w = (Ok (Some h), w') ∧
       h ≠ a ∧ resolve w h = None ∧
       resolve w' h = Some obj ∧ obj ≠ o ∧ heap w' !! obj = Some v ∧
       resolve w' a = Some o ∧ heap w' !! o = Some v ∧
       world_wf w').
Proof.
  intros Hwf h.
  pose proof (fresh_token_unresolved _ Hwf) as Hfresh.
  split.
  - exists (registered w myClass_default), (heap_next w).
    split; [by dispatch|]. split; [done|].
    split; [apply registered_resolve_new|].
    split; [apply registered_heap_new|]. by apply registered_wf.
  - intros a o v Ha Hv.
    exists (registered w v), (heap_next w).
    split.
    { dispatch. mex_unfold. simpl. rewrite Ha.
      unfold myClass_copy. mex_unfold.
      rewrite (get_valueR_ok _ _ _ Hv), (get_valueI_ok _ _ _ Hv).
      by destruct v. }
    split; [by eapply token_differs|]. split; [done|].
    split; [apply registered_resolve_new|].
    split; [symmetry; by eapply world_wf_fresh_object|].
    split; [apply registered_heap_new|].
    split; [by apply registered_resolve_old|].
    split; [by apply registered_heap_old|].
    by apply registered_wf.
Qed.

Lemma new_registers_witness :
  ∃ w' obj,
    mexFunction 1 [mxChar "new"; handle_token 1] after_newFromMatlab
    = (Ok (Some (handle_token 2)), w') ∧
    handle_token 2 ≠ handle_token 1 ∧
    resolve after_newFromMatlab (handle_token 2) = None ∧
    resolve w' (handle_token 2) = Some obj ∧ obj ≠ 1%N ∧
    heap w' !! obj = Some {| valueR := 5; valueI := 2 |} ∧
    resolve w' (handle_token 1) = Some 1%N ∧
    heap w' !! 1%N = Some {| valueR := 5; valueI := 2 |} ∧
    world_wf w'.
Proof.
  apply (proj2 (new_registers after_newFromMatlab
                  (proj1 (proj2 world_wf_scenario))));
    by vm_compute.
Defined.

(** ** Computations that leave the world alone *)

(** Computations that only read. *)
Lemma pure_ret {A} (a : A) : pure_mex (mret a).
Proof. done. Qed.
Lemma pure_raise {A} e : pure_mex (@raise A e).
Proof. done. Qed.
Lemma pure_undefined {A} : pure_mex (@undefined A).
Proof. done. Qed.
Lemma pure_bind {A B} (m : mex A) (k : A → mex B) :
  pure_mex m → (∀ a, pure_mex (k a)) → pure_mex (m ≫= k).
Proof.
  intros Hm Hk w. mex_unfold. specialize (Hm w).
  destruct (m w) as [[a| |] w1]; simpl in *; subst; [apply Hk|done..].
Qed.
Lemma pure_when c (m : mex unit) : pure_mex m → pure_mex (when c m).
Proof. intros H. by destruct c. Qed.
Lemma pure_for_range {St} start count (body : nat → St → mex St) s :
  (∀ i s, pure_mex (body i s)) → pure_mex (for_range start count body s).
Proof.
  intros Hb. revert start s.
  induction count as [|n IH]; intros start s; simpl; [done|].
  apply pure_bind; [apply Hb|]. intros s'. apply IH.
Qed.
Lemma pure_read_at p i : pure_mex (read_at p i).
Proof. unfold read_at. by destruct (_ ≫= _). Qed.
Lemma pure_write_at p i x : pure_mex (write_at p i x).
Proof. unfold write_at. destruct p; [|done]. by case_bool_decide. Qed.
Lemma pure_deref p : pure_mex (deref p).
Proof. intros w. unfold deref. by destruct (heap w !! p). Qed.
Lemma pure_get_valueR p : pure_mex (get_valueR p).
Proof. apply pure_bind; [apply pure_deref|done]. Qed.
Lemma pure_get_valueI p : pure_mex (get_valueI p).
Proof. apply pure_bind; [apply pure_deref|done]. Qed.
Lemma pure_arg prhs i : pure_mex (arg prhs i).
Proof. unfold arg. by destruct (prhs !! i). Qed.
Lemma pure_recoverObjFromMatlabId a : pure_mex (recoverObjFromMatlabId a).
Proof. intros w. unfold recoverObjFromMatlabId. by destruct (resolve w a). Qed.
Lemma pure_checkValidity a : pure_mex (checkValidity a).
Proof. done. Qed.

Create HintDb pure_mex.
#[global] Hint Resolve pure_ret pure_raise pure_undefined pure_when
  pure_read_at pure_write_at pure_deref pure_get_valueR pure_get_valueI
  pure_arg pure_recoverObjFromMatlabId pure_checkValidity : pure_mex.

Ltac pure_tac :=
  repeat first
    [ progress (eauto with pure_mex)
    | apply pure_bind; [|intros ?]
    | apply pure_for_range; intros ? ?
    | apply pure_when
    | match goal with
      | |- pure_mex (match ?x with _ => _ end) => destruct x
      | |- pure_mex (let '(_, _) := ?x in _) => destruct x
      end ].

Lemma pure_myClass_copy a : pure_mex (myClass_copy a).
Proof. unfold myClass_copy. pure_tac. Qed.

Lemma pure_myClass_of_mxArray a : pure_mex (myClass_of_mxArray a).
Proof. unfold myClass_of_mxArray, mexErrMsgIdAndTxt. pure_tac. Qed.

Lemma pure_toDouble this : pure_mex (toDouble this).
Proof. unfold toDouble. pure_tac. Qed.

Lemma resolve_owned w a obj :
  world_wf w → resolve w a = Some obj →
  obj ≠ heap_next w ∧ is_Some (heap w !! obj).
Proof.
  intros Hwf. unfold resolve. destruct (decode_token a) as [id|]; [|done].
  simpl. intros Hid. by destruct (world_wf_owned _ _ _ Hwf Hid) as (_ & ? & ?).
Qed.

Lemma toDouble_run w this v :
  heap w !! this = Some v → toDouble this w = (Ok (exported v), w).
Proof.
  intros Hv. unfold toDouble, exported. mex_unfold.
  rewrite (get_valueI_ok _ _ _ Hv).
  destruct (PrimFloat.eqb (valueI v) 0); simpl; mex_unfold;
    rewrite ?(get_valueR_ok _ _ _ Hv), ?(get_valueI_ok _ _ _ Hv); done.
Qed.

Lemma construct_run x imag w :
  myClass_of_mxArray (scalar x imag) w
  = (Ok {| valueR := x; valueI := default 0%float imag |}, w).
Proof. by destruct imag. Qed.

Lemma newFromMatlab_run nlhs x imag w :
  (nlhs ≤ 1)%Z →
  mexFunction nlhs [mxChar "newFromMatlab"; scalar x imag] w
  = (Ok (Some (handle_token (registry_next w))),
     registered w {| valueR := x; valueI := default 0%float imag |}).
Proof.
  intros Hn. dispatch. mex_unfold. simpl.
  rewrite bool_decide_eq_false_2 by lia. simpl.
  fold (scalar x imag). by rewrite construct_run.
Qed.

Lemma double_run w a o v rest :
  resolve w a = Some o → heap w !! o = Some v →
  mexFunction 1 (mxChar "double" :: a :: rest) w = (Ok (Some (exported v)), w).
Proof.
  intros Ha Hv. dispatch. mex_unfold.
  rewrite bool_decide_eq_false_2 by (rewrite !nrhs_cons; lia).
  simpl. rewrite Ha. by rewrite (toDouble_run _ _ _ Hv).
Qed.

Lemma display_run nlhs w a o v rest :
  resolve w a = Some o → heap w !! o = Some v →
  mexFunction nlhs (mxChar "display" :: a :: rest) w
  = (Ok None, printed_world w (display_line v)).
Proof.
  intros Ha Hv. dispatch. mex_unfold.
  rewrite bool_decide_eq_false_2 by (rewrite !nrhs_cons; lia).
  simpl. rewrite Ha. unfold display, display_line. mex_unfold.
  rewrite (get_valueI_ok _ _ _ Hv).
  destruct (PrimFloat.eqb (valueI v) 0);
    rewrite ?(get_valueR_ok _ _ _ Hv), ?(get_valueI_ok _ _ _ Hv); done.
Qed.

(** ** More of the dispatcher: construction, export, display *)

(** X1: in a well-formed world, [newFromMatlab] asked for at most one
    output and given a 1x1 double array registers an object holding its
    real part and its imaginary part (0.0 when the array is real) under
    a handle that named nothing before; the handles that resolved
    still resolve to the same objects, unchanged. *)
Theorem newFromMatlab_registers nlhs w x imag :
  world_wf w → (nlhs ≤ 1)%Z →
  let v := {| valueR := x; valueI := default 0%float imag |} in
  let h := handle_token (registry_next w) in
  ∃ w' obj,
    mexFunction nlhs [mxChar "newFromMatlab"; scalar x imag] w
    = (Ok (Some h), w') ∧
    resolve w h = None ∧ resolve w' h = Some obj ∧ heap w' !! obj = Some v ∧
    (∀ a o u, resolve w a = Some o → heap w !! o = Some u →
              resolve w' a = Some o ∧ heap w' !! o = Some u) ∧
    world_wf w'.
Proof.
  intros Hwf Hn v h. exists (registered w v), (heap_next w).
  split; [by apply newFromMatlab_run|].
  split; [by apply fresh_token_unresolved|].
  split; [apply registered_resolve_new|].
  split; [apply registered_heap_new|].
  split; [|by apply registered_wf].
  intros a o u Ha Hu. split;
    [by apply registered_resolve_old | by apply registered_heap_old].
Qed.

Lemma newFromMatlab_registers_witness :
  ∃ w' obj,
    mexFunction 0 [mxChar "newFromMatlab"; scalar 5 (Some 2%float)] after_new
    = (Ok (Some (handle_token 1)), w') ∧
    resolve after_new (handle_token 1) = None ∧
    resolve w' (handle_token 1) = Some obj ∧
    heap w' !! obj = Some {| valueR := 5; valueI := 2 |} ∧
    (∀ a o u, resolve after_new a = Some o → heap after_new !! o = Some u →
              resolve w' a = Some o ∧ heap w' !! o = Some u) ∧
    world_wf w'.
Proof.
  apply (newFromMatlab_registers 0 after_new 5 (Some 2%float));
    [apply world_wf_scenario | lia].
Defined.

(** X2: [double] asked for one output and given a handle that resolves
    returns a 1x1 double array holding the real part, real when the
    imaginary part compares equal to zero and complex otherwise, and
    leaves the world as it was. *)
Theorem double_exports w a o v :
  resolve w a = Some o → heap w !! o = Some v →
  mexFunction 1 [mxChar "double"; a] w
  = (Ok (Some (mxDouble [1; 1] [valueR v]
                 (if PrimFloat.eqb (valueI v) 0 then None
                  else Some [valueI v]))), w).
Proof.
  intros Ha Hv. dispatch. mex_unfold. simpl. rewrite Ha.
  by rewrite (toDouble_run _ _ _ Hv).
Qed.

Lemma double_exports_witness :
  mexFunction 1 [mxChar "double"; handle_token 0] after_plus
  = (Ok (Some (mxDouble [1; 1] [0%float] None)), after_plus)
  ∧ mexFunction 1 [mxChar "double"; handle_token 2] after_plus
    = (Ok (Some (mxDouble [1; 1] [5%float] (Some [2%float]))), after_plus).
Proof.
  split.
  - apply (double_exports after_plus (handle_token 0) 0%N
             {| valueR := 0; valueI := 0 |}); by vm_compute.
  - apply (double_exports after_plus (handle_token 2) 2%N
             {| valueR := 5; valueI := 2 |}); by vm_compute.
Defined.

(** X3: [newFromMatlab] followed by [double] on the handle it
    returned gives the real part back, and the imaginary part unless it
    compares equal to zero: a complex array whose imaginary part is 0.0
    or -0.0 comes back real.  When the imaginary part is absent or
    differs from zero the array comes back as it was given. *)
Theorem newFromMatlab_then_double w x imag :
  ∃ h w',
    mexFunction 1 [mxChar "newFromMatlab"; scalar x imag] w
    = (Ok (Some h), w') ∧
    mexFunction 1 [mxChar "double"; h] w'
    = (Ok (Some (mxDouble [1; 1] [x]
                   (match imag with
                    | Some y => if PrimFloat.eqb y 0 then None else Some [y]
                    | None => None
                    end))), w') ∧
    ((∀ y, imag = Some y → PrimFloat.eqb y 0 = false) →
     mexFunction 1 [mxChar "double"; h] w' = (Ok (Some (scalar x imag)), w')).
Proof.
  set (v := {| valueR := x; valueI := default 0%float imag |}).
  exists (handle_token (registry_next w)), (registered w v).
  assert (mexFunction 1 [mxChar "double"; handle_token (registry_next w)]
            (registered w v) = (Ok (Some (exported v)), registered w v)) as E.
  { eapply double_run;
      [apply registered_resolve_new | apply registered_heap_new]. }
  split; [by apply newFromMatlab_run|].
  rewrite E. unfold exported, scalar, v.
  split.
  - by destruct imag.
  - intros Hy. destruct imag as [y|]; [|done]. simpl.
    by rewrite (Hy y eq_refl).
Qed.

(** X4: exporting an object with [toDouble] and constructing from the
    result gives the value back, except that an imaginary part that
    compares equal to zero (so also -0.0) becomes 0.0; the world is
    unchanged. *)
Theorem export_then_construct w this v :
  heap w !! this = Some v →
  (out ← toDouble this; myClass_of_mxArray out) w
  = (Ok {| valueR := valueR v;
           valueI := if PrimFloat.eqb (valueI v) 0 then 0%float
                     else valueI v |}, w).
Proof.
  intros Hv. rewrite (mex_bind_run _ _ _ _ _ (toDouble_run _ _ _ Hv)).
  unfold exported. by destruct (PrimFloat.eqb (valueI v) 0).
Qed.

Lemma export_then_construct_witness :
  (out ← toDouble 2; myClass_of_mxArray out) after_plus
  = (Ok {| valueR := 5; valueI := 2 |}, after_plus)
  ∧ (out ← toDouble 0; myClass_of_mxArray out)
      (new_myClass {| valueR := 1; valueI := (-0)%float |} empty_world).2
    = (Ok {| valueR := 1; valueI := 0 |},
       (new_myClass {| valueR := 1; valueI := (-0)%float |} empty_world).2).
Proof.
  split.
  - apply (export_then_construct after_plus 2 {| valueR := 5; valueI := 2 |}).
    by vm_compute.
  - apply (export_then_construct _ 0
             {| valueR := 1; valueI := (-0)%float |}).
    by vm_compute.
Defined.

(** X5: [display] given a handle that resolves prints one line,
    whatever the number of outputs asked for: the real part alone when
    the imaginary part compares equal to zero, both parts otherwise.  It
    returns nothing and touches neither the objects nor the registry. *)
Theorem display_prints nlhs w a o v :
  resolve w a = Some o → heap w !! o = Some v →
  ∃ w',
    mexFunction nlhs [mxChar "display"; a] w = (Ok None, w') ∧
    console w'
    = (console w ++
       [if PrimFloat.eqb (valueI v) 0 then Printf "%f\n" [valueR v]
        else Printf "%f + %fi\n" [valueR v; valueI v]])%list ∧
    heap w' = heap w ∧ registry w' = registry w ∧
    heap_next w' = heap_next w ∧ registry_next w' = registry_next w.
Proof.
  intros Ha Hv. exists (printed_world w (display_line v)).
  split; [exact (display_run nlhs w a o v [] Ha Hv)|].
  unfold display_line. destruct (PrimFloat.eqb (valueI v) 0); by repeat split.
Qed.

Lemma display_prints_witness :
  ∃ w',
    mexFunction 3 [mxChar "display"; handle_token 0] after_plus
    = (Ok None, w') ∧
    console w'
    = (console after_plus ++
       [if PrimFloat.eqb 0 0 then Printf "%f\n" [0%float]
        else Printf "%f + %fi\n" [0%float; 0%float]])%list ∧
    heap w' = heap after_plus ∧ registry w' = registry after_plus ∧
    heap_next w' = heap_next after_plus ∧
    registry_next w' = registry_next after_plus.
Proof.
  apply (display_prints 3 after_plus (handle_token 0) 0%N
           {| valueR := 0; valueI := 0 |}); by vm_compute.
Defined.


(** ** Arguments and outputs the dispatcher does not check *)

(** X6: [display] and [double] ignore every argument after the first,
    and [plus] every argument after the second: the call behaves as the
    call without them, whether the handles resolve or not. *)
Theorem surplus_arguments_ignored nlhs w a1 a2 rest :
  mexFunction nlhs (mxChar "display" :: a1 :: rest) w
  = mexFunction nlhs [mxChar "display"; a1] w
  ∧ mexFunction nlhs (mxChar "double" :: a1 :: rest) w
    = mexFunction nlhs [mxChar "double"; a1] w
  ∧ mexFunction nlhs (mxChar "plus" :: a1 :: a2 :: rest) w
    = mexFunction nlhs [mxChar "plus"; a1; a2] w.
Proof.
  split; [|split]; dispatch; mex_unfold;
    rewrite !(bool_decide_eq_false_2 (_ < 2)%Z)
      by (rewrite !nrhs_cons; simpl length; lia);
    reflexivity.
Qed.

(** X7: for [plus] and for every unknown verb, a call with exactly one
    argument, a handle that resolves, reads [prhs[2]], which is past
    the end of the arguments: the tests on [nrhs] ([nrhs < 2]) let it
    through.  The verb is the command text up to its first NUL. *)
Theorem third_argument_read_unchecked cmd nlhs a w :
  (String.length cmd < 64)%nat →
  c_str cmd
    ∉ ["new"; "newFromMatlab"; "delete"; "isValid"; "display"; "double"] →
  is_Some (resolve w a) →
  (mexFunction nlhs [mxChar cmd; a] w).1 = Undefined.
Proof.
  intros Hlen Hcmd [obj Ha]. rewrite !not_elem_of_cons in Hcmd.
  destruct Hcmd as (N1 & N2 & N3 & N4 & N5 & N6 & _).
  unfold mexFunction. rewrite command_read by done.
  rewrite !streq_neq by (simpl; congruence).
  mex_unfold. simpl. by rewrite Ha.
Qed.

Lemma third_argument_read_unchecked_witness :
  (mexFunction 1 [mxChar "plus"; handle_token 1] after_plus).1 = Undefined.
Proof.
  apply third_argument_read_unchecked; [simpl; lia | | by_compute].
  simpl. rewrite !not_elem_of_cons. repeat split; try discriminate.
  apply not_elem_of_nil.
Defined.

(** X8: a call that asks for the wrong number of outputs is refused
    and changes nothing: [new] unless one output is asked for (whatever
    its arguments), [newFromMatlab] with more than one, [isValid] and
    [plus] with none, [double] unless exactly one; for the last three
    the handles are resolved first. *)
Theorem wrong_output_count nlhs w :
  (nlhs ≠ 1%Z → ∀ args,
     mexFunction nlhs (mxChar "new" :: args) w
     = (Raised (ErrMsgTxt "New: One output expected."), w)) ∧
  ((nlhs > 1)%Z → ∀ a,
     mexFunction nlhs [mxChar "newFromMatlab"; a] w
     = (Raised (ErrMsgIdAndTxt "myClass:maxlhs" "Too many output arguments."),
        w)) ∧
  ((nlhs < 1)%Z → ∀ a, is_Some (resolve w a) →
     mexFunction nlhs [mxChar "isValid"; a] w
     = (Raised (ErrMsgTxt "isValid: Unexpected arguments."), w)) ∧
  (nlhs ≠ 1%Z → ∀ a, is_Some (resolve w a) →
     mexFunction nlhs [mxChar "double"; a] w
     = (Raised (ErrMsgTxt "double: Unexpected arguments."), w)) ∧
  ((nlhs < 1)%Z → ∀ a1 a2, is_Some (resolve w a1) → is_Some (resolve w a2) →
     mexFunction nlhs [mxChar "plus"; a1; a2] w
     = (Raised (ErrMsgTxt "plus: Unexpected arguments."), w)).
Proof.
  split; [|split; [|split; [|split]]].
  - intros Hn args. dispatch. mex_unfold.
    by rewrite bool_decide_eq_true_2.
  - intros Hn a. dispatch. mex_unfold. simpl.
    by rewrite bool_decide_eq_true_2.
  - intros Hn a [o Ha]. dispatch. mex_unfold. simpl. rewrite Ha.
    by rewrite bool_decide_eq_true_2.
  - intros Hn a [o Ha]. dispatch. mex_unfold. simpl. rewrite Ha.
    by rewrite bool_decide_eq_true_2.
  - intros Hn a1 a2 [o1 H1] [o2 H2]. dispatch. mex_unfold. simpl.
    rewrite H1, H2. by rewrite bool_decide_eq_true_2.
Qed.

Lemma wrong_output_count_witness :
  mexFunction 0 [mxChar "plus"; handle_token 0; handle_token 1] after_plus
  = (Raised (ErrMsgTxt "plus: Unexpected arguments."), after_plus)
  ∧ mexFunction 0 [mxChar "new"] after_plus
    = (Raised (ErrMsgTxt "New: One output expected."), after_plus).
Proof.
  split.
  - apply (wrong_output_count 0 after_plus); [lia | by_compute ..].
  - apply (wrong_output_count 0 after_plus). lia.
Defined.

(** ** [operator+=] *)

(** X9: [operator+=] adds in place: it returns [this], whose object
    then holds the component-wise sum, allocates nothing and changes no
    other object; when [b] is [this] itself the object is doubled. *)
Theorem operator_plus_assign_in_place w this b vt vb :
  heap w !! this = Some vt → heap w !! b = Some vb →
  ∃ w',
    operator_plus_assign this b w = (Ok this, w') ∧
    heap w' = <[this := value_sum vt vb]> (heap w) ∧
    heap_next w' = heap_next w ∧ registry w' = registry w ∧
    registry_next w' = registry_next w ∧ console w' = console w.
Proof.
  intros Ht Hb.
  unfold operator_plus_assign, set_valueR, set_valueI, get_valueR,
    get_valueI, deref, store.
  mex_unfold.
  destruct (decide (this = b)) as [<-|Hne].
  - assert (vb = vt) as -> by congruence. clear Hb. heap_steps.
    eexists. split; [reflexivity|]. simpl. rewrite insert_insert_eq.
    by repeat split.
  - heap_steps.
    eexists. split; [reflexivity|]. simpl. rewrite insert_insert_eq.
    by repeat split.
Qed.

Lemma operator_plus_assign_in_place_witness :
  ∃ w',
    operator_plus_assign 1 1 after_plus = (Ok 1%N, w') ∧
    heap w' = <[1%N := value_sum {| valueR := 5; valueI := 2 |}
                         {| valueR := 5; valueI := 2 |}]> (heap after_plus) ∧
    heap_next w' = heap_next after_plus ∧ registry w' = registry after_plus ∧
    registry_next w' = registry_next after_plus ∧
    console w' = console after_plus.
Proof.
  apply operator_plus_assign_in_place; by vm_compute.
Defined.

(** ** [isValid] on a live handle *)

(** X15: [isValid] asked for at least one output and given exactly one
    argument, a handle that resolves, gets to the store of its answer:
    a four-byte [int] written through [(int* )mxGetData] to the 1x1
    uint8 array it has just created, whose data is one byte.  The store
    runs past the array. *)
Theorem isValid_store_out_of_bounds nlhs w a :
  (1 ≤ nlhs)%Z → is_Some (resolve w a) →
  (mexFunction nlhs [mxChar "isValid"; a] w).1 = Undefined.
Proof.
  intros Hn [o Ha]. dispatch. mex_unfold. simpl. rewrite Ha.
  rewrite bool_decide_eq_false_2 by lia. simpl.
  by destruct (bool_decide _).
Qed.

Lemma isValid_store_out_of_bounds_witness :
  (mexFunction 2 [mxChar "isValid"; handle_token 2] after_plus).1 = Undefined.
Proof. apply isValid_store_out_of_bounds; [lia | by_compute]. Defined.

(** ** One effect per call, and the invariant *)

Lemma registered_inv w v : world_inv w → world_inv (registered w v).
Proof.
  intros [Hwf Hinj]. split; [by apply registered_wf|].
  simpl. intros id1 id2 obj. rewrite !lookup_insert.
  repeat case_decide; intros; simplify_eq; try done.
  - by destruct (world_wf_owned _ _ _ Hwf H2) as (_ & ? & _).
  - by destruct (world_wf_owned _ _ _ Hwf H1) as (_ & ? & _).
  - by eapply Hinj.
Qed.

Lemma printed_world_inv w p : world_inv w → world_inv (printed_world w p).
Proof. done. Qed.

Lemma released_inv w id obj :
  registry w !! id = Some obj → world_inv w → world_inv (released w id obj).
Proof.
  intros Hid [[Hreg Hheap] Hinj]. split; [split|]; simpl.
  - intros id' obj' Hid'. apply lookup_delete_Some in Hid' as [Hne Hid'].
    destruct (Hreg _ _ Hid') as [Hlt Hobj]. split; [done|].
    rewrite lookup_delete_ne; [done|].
    intros <-. apply Hne. by eapply Hinj.
  - intros p x Hp. apply lookup_delete_Some in Hp as [_ Hp].
    by apply Hheap in Hp.
  - intros id1 id2 obj' H1 H2.
    apply lookup_delete_Some in H1 as [_ H1].
    apply lookup_delete_Some in H2 as [_ H2]. by eapply Hinj.
Qed.

Lemma empty_world_inv : world_inv empty_world.
Proof.
  split; [split|]; simpl.
  - apply map_Forall_empty.
  - apply map_Forall_empty.
  - intros id1 id2 obj H. by rewrite lookup_empty in H.
Qed.

(** A property of the outcome of a sequence, from its steps. *)
Lemma outcome_bind_pure {A B} (m : mex A) (k : A → mex B)
    (P : result B * world → Prop) w :
  pure_mex m → (∀ e, P (Raised e, w)) → P (Undefined, w) →
  (∀ a, P (k a w)) → P ((m ≫= k) w).
Proof.
  intros Hm He Hu Hk. mex_unfold. specialize (Hm w).
  destruct (m w) as [[a| |] w1]; simpl in *; subst; [apply Hk|done..].
Qed.

Lemma outcome_bind_assoc {A B C} (m : mex A) (k : A → mex B)
    (k' : B → mex C) (P : result C * world → Prop) w :
  P ((m ≫= (λ a, k a ≫= k')) w) → P (((m ≫= k) ≫= k') w).
Proof. by rewrite mex_bind_assoc. Qed.

Ltac eff_step :=
  apply outcome_bind_pure;
  [ solve [unfold mexErrMsgTxt, mexErrMsgIdAndTxt; pure_tac]
  | by left
  | by left
  | intros ? ].

Lemma command_of_call prhs cmd :
  (if bool_decide (Z.of_nat (length prhs) < 1)%Z then None
   else a ← prhs !! 0; mxGetString a 64) = Some cmd →
  prhs !! 0 = Some (mxChar cmd).
Proof.
  case_bool_decide; [done|].
  destruct (prhs !! 0) as [[text| | | |]|]; simpl; try done.
  case_bool_decide; [|done]. by intros [= ->].
Qed.

Lemma streq_eq a b : streq a b = true → c_str a = c_str b.
Proof. apply String.eqb_eq. Qed.

Lemma display_call_outcome prhs cmd this w :
  prhs !! 0 = Some (mxChar cmd) → c_str cmd = "display" →
  call_outcome prhs w ((display this ≫= λ _, mret None) w).
Proof.
  intros Hcmd Hverb. unfold display. apply outcome_bind_assoc. eff_step.
  destruct (PrimFloat.eqb _ _); apply outcome_bind_assoc; eff_step;
    [|apply outcome_bind_assoc; eff_step];
    right; right; left; by eexists cmd, (Printf _ _).
Qed.

(** Every call, case by case.  Only [plus] needs the world to be well
    formed: it reads the objects of the two handles after it has
    allocated its result. *)
Lemma mexFunction_call_outcome nlhs prhs w :
  (∀ cmd, prhs !! 0 = Some (mxChar cmd) → c_str cmd = "plus" → world_wf w) →
  call_outcome prhs w (mexFunction nlhs prhs w).
Proof.
  intros Hwf. unfold mexFunction.
  destruct (if bool_decide _ then None else _) as [cmd|] eqn:Ecmd;
    [|by left].
  apply command_of_call in Ecmd.
  assert (∀ v verb, verb = c_str cmd →
            verb ∈ ["new"; "newFromMatlab"; "plus"] →
            call_outcome prhs w
              (Ok (Some (handle_token (registry_next w))), registered w v))
    as Hreg.
  { intros v verb -> Hin. right; left. by exists cmd, v. }
  destruct (streq "new" cmd) eqn:E1.
  { apply streq_eq in E1.
    assert (∀ v, call_outcome prhs w
                   (Ok (Some (handle_token (registry_next w))),
                    registered w v)) as Hnew.
    { intros v. eapply Hreg; [exact E1|]. repeat constructor. }
    eff_step. case_bool_decide; [apply Hnew|].
    case_bool_decide; [|by left].
    repeat eff_step. apply outcome_bind_assoc. eff_step. apply Hnew. }
  destruct (streq "newFromMatlab" cmd) eqn:E2.
  { apply streq_eq in E2.
    repeat eff_step. apply outcome_bind_assoc. eff_step.
    eapply Hreg; [exact E2|]. repeat constructor. }
  destruct (streq "delete" cmd) eqn:E3.
  { apply streq_eq in E3.
    unfold when. case_bool_decide as Hn; [by left|].
    destruct prhs as [|c [|d [|]]]; try (simpl in Hn; lia).
    simpl in Ecmd. injection Ecmd as ->.
    mex_unfold. simpl. unfold destroyObject.
    destruct (decode_token d) as [id|] eqn:Ed; [|by left].
    destruct (registry w !! id) as [obj|] eqn:E; [|by left].
    right; right; right. by exists cmd, d, id, obj. }
  eff_step. eff_step.
  mex_unfold.
  destruct (resolve w a0) as [o1|] eqn:Hr1; [|by left].
  destruct (streq "isValid" cmd).
  { destruct (_ || _); [by left|]. cbv beta iota.
    rewrite isValid_store_overruns. by left. }
  destruct (streq "display" cmd) eqn:E5.
  { apply streq_eq in E5.
    apply (display_call_outcome prhs cmd o1 w Ecmd). by symmetry. }
  destruct (streq "double" cmd).
  { case_bool_decide; [by left|]. simpl.
    pose proof (pure_toDouble o1 w) as Hp.
    destruct (toDouble o1 w) as [[?| |] ?]; simpl in Hp; subst; by left. }
  destruct (prhs !! 2) as [a2|]; [|by left]. cbv beta iota.
  destruct (resolve w a2) as [o2|] eqn:Hr2; [|by left].
  destruct (streq "plus" cmd) eqn:E7; [|by left].
  apply streq_eq in E7. specialize (Hwf cmd Ecmd (eq_sym E7)).
  destruct (_ || _); [by left|]. cbv beta iota.
  destruct (resolve_owned _ _ _ Hwf Hr1) as [Hn1 [v1 Hv1]].
  destruct (resolve_owned _ _ _ Hwf Hr2) as [Hn2 [v2 Hv2]].
  rewrite (plus_with_plus_new_run _ _ _ _ _ Hn1 Hn2 Hv1 Hv2).
  eapply Hreg; [exact E7|]. repeat constructor.
Qed.

(** X10: in a well-formed world a call does one thing at most: it
    changes nothing (as every call that fails does), or registers one
    new object, or prints one line, or releases one entry. *)
Theorem mexFunction_one_effect nlhs prhs w :
  world_wf w → one_effect w (mexFunction nlhs prhs w).2.
Proof.
  intros Hwf.
  destruct (mexFunction_call_outcome nlhs prhs w (λ _ _ _, Hwf))
    as [E|[(cmd & v & _ & _ & E)|[(cmd & p & _ & _ & E)
       |(cmd & d & id & obj & _ & _ & _ & Hid & E)]]].
  - by left.
  - right; left. exists v. by rewrite E.
  - right; right; left. exists p. by rewrite E.
  - right; right; right. exists id, obj. by rewrite E.
Qed.

Lemma mexFunction_one_effect_witness :
  one_effect after_plus
    (mexFunction 0 [mxChar "delete"; handle_token 0] after_plus).2.
Proof. apply mexFunction_one_effect. apply world_wf_scenario. Defined.

Lemma call_keeps_inv nlhs prhs w :
  world_inv w → world_inv (mexFunction nlhs prhs w).2.
Proof.
  intros Hinv.
  destruct (mexFunction_call_outcome nlhs prhs w (λ _ _ _, proj1 Hinv))
    as [->|[(cmd & v & _ & _ & ->)|[(cmd & p & _ & _ & ->)
       |(cmd & d & id & obj & _ & _ & _ & Hid & ->)]]]; simpl.
  - done.
  - by apply registered_inv.
  - by apply printed_world_inv.
  - by apply released_inv.
Qed.

Lemma world_inv_scenario : world_inv after_plus.
Proof.
  unfold after_plus, after_newFromMatlab, after_new.
  repeat apply call_keeps_inv. apply empty_world_inv.
Qed.

(** X11: every world the host can reach from the empty one by calling
    the MEX function is well formed, and no object in it is owned by two
    handles. *)
Theorem reachable_inv w : reachable w → world_inv w.
Proof.
  induction 1 as [|nlhs prhs w _ IH]; [apply empty_world_inv|].
  by apply call_keeps_inv.
Qed.

Lemma reachable_inv_witness : world_inv after_delete.
Proof.
  apply reachable_inv. unfold after_delete, after_plus, after_newFromMatlab,
    after_new. repeat apply reachable_call. apply reachable_empty.
Defined.

(** X12: a handle that resolves keeps resolving to the same object,
    holding the same value, through every call that runs without
    undefined behaviour, except a [delete] of that very handle (the
    verb being the command text up to its first NUL): no command
    changes or frees an object behind another handle. *)
Theorem live_handles_survive nlhs prhs w a o v :
  world_inv w → resolve w a = Some o → heap w !! o = Some v →
  (∀ cmd d, prhs = [mxChar cmd; d] → c_str cmd = "delete" →
            decode_token d ≠ decode_token a) →
  (mexFunction nlhs prhs w).1 ≠ Undefined →
  resolve (mexFunction nlhs prhs w).2 a = Some o
  ∧ heap (mexFunction nlhs prhs w).2 !! o = Some v.
Proof.
  intros [Hwf Hinj] Ha Hv Hdel _.
  destruct (mexFunction_call_outcome nlhs prhs w (λ _ _ _, Hwf))
    as [->|[(cmd & u & _ & _ & ->)|[(cmd & p & _ & _ & ->)
       |(cmd & d & id & obj & -> & Hverb & Hd & Hid & E)]]];
    [| | |rewrite E]; simpl.
  - done.
  - split; [by apply registered_resolve_old | by apply registered_heap_old].
  - done.
  - specialize (Hdel cmd d eq_refl Hverb). unfold resolve in *.
    destruct (decode_token a) as [ida|]; [|done]. simpl in *.
    assert (ida ≠ id) as Hne by congruence.
    rewrite lookup_delete_ne by done. split; [done|].
    rewrite lookup_delete_ne; [done|].
    intros <-. apply Hne. by eapply Hinj.
Qed.

Lemma live_handles_survive_witness :
  resolve (mexFunction 0 [mxChar "delete"; handle_token 0] after_plus).2
    (handle_token 2) = Some 2%N
  ∧ heap (mexFunction 0 [mxChar "delete"; handle_token 0] after_plus).2
      !! 2%N = Some {| valueR := 5; valueI := 2 |}.
Proof.
  apply live_handles_survive.
  - apply world_inv_scenario.
  - by vm_compute.
  - by vm_compute.
  - intros cmd d [= <- <-] _. discriminate.
  - by vm_compute.
Defined.

(** X13: a call that runs without undefined behaviour and whose verb
    (the command text up to its first NUL) is none of [new],
    [newFromMatlab], [delete] and [plus] never touches the objects or
    the registry, whatever its arguments and whether it returns or
    raises; and unless the verb is [display] it leaves the whole world
    as it was. *)
Theorem read_only_calls nlhs prhs w :
  (∀ cmd, prhs !! 0 = Some (mxChar cmd) →
          c_str cmd ∉ ["new"; "newFromMatlab"; "delete"; "plus"]) →
  (mexFunction nlhs prhs w).1 ≠ Undefined →
  heap (mexFunction nlhs prhs w).2 = heap w
  ∧ heap_next (mexFunction nlhs prhs w).2 = heap_next w
  ∧ registry (mexFunction nlhs prhs w).2 = registry w
  ∧ registry_next (mexFunction nlhs prhs w).2 = registry_next w
  ∧ ((∀ cmd, prhs !! 0 = Some (mxChar cmd) → c_str cmd ≠ "display") →
     (mexFunction nlhs prhs w).2 = w).
Proof.
  intros Hverb _.
  assert (∀ cmd, prhs !! 0 = Some (mxChar cmd) → c_str cmd = "plus" →
                 world_wf w) as Hwf.
  { intros cmd E Hp. exfalso. apply (Hverb cmd E). rewrite Hp.
    repeat constructor. }
  destruct (mexFunction_call_outcome nlhs prhs w Hwf)
    as [->|[(cmd & u & Hcmd & Hin & _)|[(cmd & p & Hcmd & Hd & ->)
       |(cmd & d & id & obj & -> & Hd & _)]]].
  - done.
  - exfalso. apply (Hverb cmd Hcmd).
    repeat (apply elem_of_cons in Hin as [->|Hin];
            [by repeat constructor|]).
    by apply elem_of_nil in Hin.
  - repeat split. intros Hnd. by destruct (Hnd cmd Hcmd).
  - exfalso. apply (Hverb cmd eq_refl). rewrite Hd. repeat constructor.
Qed.

Lemma read_only_calls_witness :
  heap (mexFunction 1 [mxChar "double"; handle_token 2] after_plus).2
  = heap after_plus
  ∧ heap_next (mexFunction 1 [mxChar "double"; handle_token 2] after_plus).2
    = heap_next after_plus
  ∧ registry (mexFunction 1 [mxChar "double"; handle_token 2] after_plus).2
    = registry after_plus
  ∧ registry_next
      (mexFunction 1 [mxChar "double"; handle_token 2] after_plus).2
    = registry_next after_plus
  ∧ ((∀ cmd, [mxChar "double"; handle_token 2] !! 0 = Some (mxChar cmd) →
             c_str cmd ≠ "display") →
     (mexFunction 1 [mxChar "double"; handle_token 2] after_plus).2
     = after_plus).
Proof.
  apply read_only_calls; [|by vm_compute].
  intros cmd [= <-]. simpl. rewrite !not_elem_of_cons.
  repeat split; try discriminate. apply not_elem_of_nil.
Defined.

(** ** Release, composition, validation *)

Lemma plus_run nlhs w a1 a2 o1 o2 v1 v2 :
  world_wf w → (1 ≤ nlhs)%Z →
  resolve w a1 = Some o1 → resolve w a2 = Some o2 →
  heap w !! o1 = Some v1 → heap w !! o2 = Some v2 →
  mexFunction nlhs [mxChar "plus"; a1; a2] w
  = (Ok (Some (handle_token (registry_next w))),
     registered w (value_sum v1 v2)).
Proof.
  intros Hwf Hn H1 H2 Hv1 Hv2.
  dispatch. mex_unfold. simpl. rewrite H1, H2.
  rewrite bool_decide_eq_false_2 by lia. simpl.
  apply plus_with_plus_new_run; try done; by eapply world_wf_fresh_object.
Qed.

(** X14: [delete] given a handle that resolves returns nothing,
    whatever the number of outputs asked for; afterwards the handle no
    longer resolves, its object is gone, nothing was printed and no
    counter moved, and a second [delete] of it raises InvalidHandle. *)
Theorem delete_releases nlhs w a obj :
  resolve w a = Some obj →
  ∃ w',
    mexFunction nlhs [mxChar "delete"; a] w = (Ok None, w') ∧
    resolve w' a = None ∧ heap w' !! obj = None ∧
    console w' = console w ∧
    registry_next w' = registry_next w ∧ heap_next w' = heap_next w ∧
    mexFunction nlhs [mxChar "delete"; a] w' = (Raised ErrInvalidHandle, w').
Proof.
  intros Ha.
  assert (∃ id, decode_token a = Some id ∧ registry w !! id = Some obj)
    as (id & Ed & Hid).
  { unfold resolve in Ha. destruct (decode_token a) as [id|]; [|done].
    by exists id. }
  exists (released w id obj).
  assert (resolve (released w id obj) a = None) as Hdead.
  { unfold resolve. rewrite Ed. simpl. apply lookup_delete_eq. }
  split.
  { dispatch. mex_unfold. simpl. unfold destroyObject.
    by rewrite Ed, Hid. }
  split; [exact Hdead|]. split; [apply lookup_delete_eq|].
  repeat (split; [reflexivity|]).
  dispatch. mex_unfold. simpl.
  by rewrite (destroyObject_dead _ _ Hdead).
Qed.

Lemma delete_releases_witness :
  ∃ w',
    mexFunction 0 [mxChar "delete"; handle_token 1] after_plus
    = (Ok None, w') ∧
    resolve w' (handle_token 1) = None ∧ heap w' !! 1%N = None ∧
    console w' = console after_plus ∧
    registry_next w' = registry_next after_plus ∧
    heap_next w' = heap_next after_plus ∧
    mexFunction 0 [mxChar "delete"; handle_token 1] w'
    = (Raised ErrInvalidHandle, w').
Proof. apply delete_releases. by vm_compute. Defined.

(** X16: in a well-formed world, [plus] followed by [double] on the
    handle it returned exports the component-wise sum: a real array
    when the imaginary parts add up to zero, a complex one otherwise. *)
Theorem plus_then_double w a1 a2 o1 o2 v1 v2 :
  world_wf w →
  resolve w a1 = Some o1 → resolve w a2 = Some o2 →
  heap w !! o1 = Some v1 → heap w !! o2 = Some v2 →
  ∃ h3 w',
    mexFunction 1 [mxChar "plus"; a1; a2] w = (Ok (Some h3), w') ∧
    mexFunction 1 [mxChar "double"; h3] w'
    = (Ok (Some
             (mxDouble [1; 1] [(valueR v1 + valueR v2)%float]
                (if PrimFloat.eqb (valueI v1 + valueI v2) 0 then None
                 else Some [(valueI v1 + valueI v2)%float]))), w').
Proof.
  intros Hwf H1 H2 Hv1 Hv2.
  exists (handle_token (registry_next w)), (registered w (value_sum v1 v2)).
  split; [by eapply plus_run|].
  apply (double_run _ _ (heap_next w) (value_sum v1 v2) []);
    [apply registered_resolve_new | apply registered_heap_new].
Qed.

Lemma plus_then_double_witness :
  ∃ h3 w',
    mexFunction 1 [mxChar "plus"; handle_token 1; handle_token 1] after_plus
    = (Ok (Some h3), w') ∧
    mexFunction 1 [mxChar "double"; h3] w'
    = (Ok (Some
             (mxDouble [1; 1] [(5 + 5)%float]
                (if PrimFloat.eqb (2 + 2) 0 then None
                 else Some [(2 + 2)%float]))), w').
Proof.
  apply (plus_then_double after_plus (handle_token 1) (handle_token 1)
           1%N 1%N {| valueR := 5; valueI := 2 |}
           {| valueR := 5; valueI := 2 |});
    [apply world_wf_scenario | by vm_compute ..].
Defined.

(** X17: the order in which [newFromMatlab] validates its argument: an
    array that is not of class double is refused as such whatever its
    shape; a double array that is not two-dimensional is refused for
    that; and a two-dimensional double array that is not 1x1 is refused
    for its size.  Nothing is registered in any of these cases. *)
Theorem newFromMatlab_validation_order nlhs a w :
  (nlhs ≤ 1)%Z →
  (mxIsDouble a = false →
   mexFunction nlhs [mxChar "newFromMatlab"; a] w
   = (Raised (ErrMsgIdAndTxt "myClass:inputNotDouble"
               "Input argument must be of type double."), w)) ∧
  (mxIsDouble a = true → mxGetNumberOfDimensions a ≠ 2%nat →
   mexFunction nlhs [mxChar "newFromMatlab"; a] w
   = (Raised (ErrMsgIdAndTxt "myClass:inputNot2D"
               "Input argument must be two dimensional\n"), w)) ∧
  (mxIsDouble a = true → mxGetNumberOfDimensions a = 2%nat →
   mxGetDimensions a ≠ [1; 1]%nat →
   mexFunction nlhs [mxChar "newFromMatlab"; a] w
   = (Raised (ErrMsgIdAndTxt "myClass:invalidSize" "Size [1 1] expected."),
      w)).
Proof.
  intros Hn.
  assert (mexFunction nlhs [mxChar "newFromMatlab"; a] w
          = (when (negb (mxIsDouble a))
               (mexErrMsgIdAndTxt "myClass:inputNotDouble"
                  "Input argument must be of type double.");;
             when (bool_decide (mxGetNumberOfDimensions a ≠ 2%nat))
               (mexErrMsgIdAndTxt "myClass:inputNot2D"
                  "Input argument must be two dimensional\n");;
             obj ← (v ← myClass_of_mxArray a; new_myClass v);
             id ← createMatlabIdFromObj obj;
             mret (Some id)) w) as ->.
  { dispatch. mex_unfold. simpl.
    by rewrite bool_decide_eq_false_2 by lia. }
  split; [|split].
  - intros ->. done.
  - intros -> Hd. mex_unfold. simpl. by rewrite bool_decide_eq_true_2.
  - intros -> Hd Hs. mex_unfold. simpl.
    rewrite bool_decide_eq_false_2 by (intros ?; done).
    unfold mxGetNumberOfDimensions in Hd.
    destruct (mxGetDimensions a) as [|m [|n [|]]] eqn:Ed;
      try discriminate Hd.
    unfold myClass_of_mxArray, mxGetM, mxGetN. rewrite Ed. mex_unfold. simpl.
    assert (bool_decide (m ≠ 1%nat) || bool_decide (n * 1 ≠ 1)%nat = true)
      as ->; [|done].
    apply orb_true_iff.
    destruct (decide (m = 1%nat)) as [->|];
      [right|left; by apply bool_decide_eq_true_2].
    apply bool_decide_eq_true_2. intros Hn'. apply Hs.
    f_equal. f_equal. lia.
Qed.

Lemma newFromMatlab_validation_order_witness :
  mexFunction 1 [mxChar "newFromMatlab"; mxUint64 [1; 1] [7%N]] after_new
  = (Raised (ErrMsgIdAndTxt "myClass:inputNotDouble"
              "Input argument must be of type double."), after_new).
Proof.
  apply (newFromMatlab_validation_order 1 (mxUint64 [1; 1] [7%N]) after_new);
    [lia | reflexivity].
Defined.

(** ** Failure and undefined behaviour *)

Lemma wf_scalar a :
  mx_wf a → mxIsDouble a = true → mxGetDimensions a = [1; 1]%nat →
  ∃ x imag, a = scalar x imag.
Proof.
  destruct a as [|dims pr pi| | |]; try done. simpl.
  intros [Hpr Hpi] _ ->. simpl in *.
  destruct pr as [|x [|]]; try discriminate Hpr.
  destruct pi as [l|].
  - specialize (Hpi l eq_refl). destruct l as [|y [|]]; try discriminate Hpi.
    by exists x, (Some y).
  - by exists x, None.
Qed.

Lemma construct_rejects a w :
  mxGetNumberOfDimensions a = 2%nat → mxGetDimensions a ≠ [1; 1]%nat →
  myClass_of_mxArray a w
  = (Raised (ErrMsgIdAndTxt "myClass:invalidSize" "Size [1 1] expected."), w).
Proof.
  unfold mxGetNumberOfDimensions. intros Hd Hs.
  destruct (mxGetDimensions a) as [|m [|n [|]]] eqn:Ed; try discriminate Hd.
  unfold myClass_of_mxArray, mxGetM, mxGetN. rewrite Ed. mex_unfold. simpl.
  assert (bool_decide (m ≠ 1%nat) || bool_decide (n * 1 ≠ 1)%nat = true)
    as ->; [|done].
  apply orb_true_iff.
  destruct (decide (m = 1%nat)) as [->|];
    [right|left; by apply bool_decide_eq_true_2].
  apply bool_decide_eq_true_2. intros Hn'. apply Hs.
  f_equal. f_equal. lia.
Qed.

(** X18: in a well-formed world a call that raises an error leaves the
    world exactly as it was: nothing is registered, released or printed
    by a call that is refused. *)
Theorem raising_calls_change_nothing nlhs prhs w e :
  world_wf w →
  (mexFunction nlhs prhs w).1 = Raised e →
  (mexFunction nlhs prhs w).2 = w.
Proof.
  intros Hwf Hfail.
  destruct (mexFunction_call_outcome nlhs prhs w (λ _ _ _, Hwf))
    as [E|[(cmd & v & _ & _ & E)|[(cmd & p & _ & _ & E)
       |(cmd & d & id & obj & _ & _ & _ & _ & E)]]];
    [done|rewrite E in Hfail; discriminate Hfail..].
Qed.

Lemma raising_calls_change_nothing_witness :
  (mexFunction 1 [mxChar "plus"; handle_token 1; handle_token 9] after_plus).2
  = after_plus.
Proof.
  apply (raising_calls_change_nothing 1 _ after_plus ErrInvalidHandle);
    [apply world_wf_scenario | by vm_compute].
Defined.

(** X19: in a well-formed world and on well-formed arrays, a call
    reads or writes out of bounds in two places only, both reached by a
    call of exactly one argument, a handle that resolves: the store of
    the answer of [isValid] (asked for at least one output), and the
    read of [prhs[2]] when the verb is none of the six tested before
    that read.  No other call reads or writes past an array or uses a
    dangling reference.  (Advancing the null pointer to the imaginary
    data of a real array is arithmetic, not an access, and is not part
    of this statement.) *)
Theorem out_of_bounds_only_at_two_places nlhs prhs w :
  world_wf w → Forall mx_wf prhs →
  (mexFunction nlhs prhs w).1 = Undefined →
  ∃ cmd a,
    prhs = [mxChar cmd; a] ∧ is_Some (resolve w a) ∧
    (c_str cmd = "isValid" ∧ (1 ≤ nlhs)%Z
     ∨ c_str cmd
         ∉ ["new"; "newFromMatlab"; "delete"; "isValid"; "display";
            "double"]).
Proof.
  intros Hwf Hargs. unfold mexFunction.
  destruct (if bool_decide _ then None else _) as [cmd|] eqn:Ecmd;
    [|by intros [=]].
  apply command_of_call in Ecmd.
  destruct (streq "new" cmd) eqn:E1.
  { mex_unfold. case_bool_decide; [by intros [=]|].
    case_bool_decide; [by intros [=]|].
    case_bool_decide as Hn; [|by intros [=]].
    destruct prhs as [|c [|a [|]]]; try (simpl in Hn; lia). simpl.
    destruct (resolve w a) as [o|] eqn:Ha; [|by intros [=]].
    destruct (resolve_owned _ _ _ Hwf Ha) as [_ [v Hv]].
    unfold myClass_copy. mex_unfold.
    rewrite (get_valueR_ok _ _ _ Hv), (get_valueI_ok _ _ _ Hv).
    by intros [=]. }
  destruct (streq "newFromMatlab" cmd) eqn:E2.
  { mex_unfold. case_bool_decide as Hn; [by intros [=]|].
    case_bool_decide; [by intros [=]|].
    destruct prhs as [|c [|a [|]]]; try (simpl in Hn; lia). simpl.
    destruct (mxIsDouble a) eqn:Hd; [|by intros [=]]. simpl.
    case_bool_decide as Hnd; [by intros [=]|].
    destruct (decide (mxGetDimensions a = [1; 1]%nat)) as [Hs|Hs].
    - apply Forall_cons in Hargs as [_ Hargs].
      apply Forall_cons in Hargs as [Ha _].
      destruct (wf_scalar a Ha Hd Hs) as (x & imag & ->).
      rewrite construct_run. by intros [=].
    - rewrite construct_rejects; [by simpl; intros [=]| |done].
      destruct (decide (mxGetNumberOfDimensions a = 2%nat)); done. }
  destruct (streq "delete" cmd) eqn:E3.
  { mex_unfold. case_bool_decide as Hn; [by intros [=]|].
    destruct prhs as [|c [|a [|]]]; try (simpl in Hn; lia). simpl.
    unfold destroyObject.
    destruct (decode_token a) as [id|]; [|by intros [=]].
    destruct (registry w !! id); by intros [=]. }
  mex_unfold. case_bool_decide as Hn; [by intros [=]|].
  destruct prhs as [|c [|a rest]]; try (simpl in Hn; lia).
  simpl in Ecmd. injection Ecmd as ->.
  change ((mxChar cmd :: a :: rest) !! 1%nat) with (Some a).
  change ((mxChar cmd :: a :: rest) !! 2%nat) with (rest !! 0%nat).
  cbv beta iota.
  destruct (resolve w a) as [o1|] eqn:Ha; [|by intros [=]].
  destruct (resolve_owned _ _ _ Hwf Ha) as [Hn1 [v1 Hv1]].
  destruct (streq "isValid" cmd) eqn:E4.
  { apply streq_eq in E4.
    destruct (bool_decide (nlhs < 1)%Z) eqn:Enl; [by intros [=]|].
    destruct (bool_decide (_ > 2)%Z) eqn:Enr; [by intros [=]|].
    apply bool_decide_eq_false in Enl, Enr.
    destruct rest as [|? ?]; [|rewrite !nrhs_cons in Enr; lia].
    intros _. exists cmd, a. split; [done|]. split; [by eexists|].
    left. split; [by symmetry | lia]. }
  destruct (streq "display" cmd) eqn:E5.
  { unfold display. mex_unfold.
    rewrite (get_valueI_ok _ _ _ Hv1).
    destruct (PrimFloat.eqb _ _);
      rewrite ?(get_valueR_ok _ _ _ Hv1), ?(get_valueI_ok _ _ _ Hv1);
      by intros [=]. }
  destruct (streq "double" cmd) eqn:E6.
  { case_bool_decide; [by intros [=]|]. cbv beta iota.
    rewrite (toDouble_run _ _ _ Hv1). by intros [=]. }
  destruct rest as [|a2 rest]; cbn [lookup list_lookup]; cbv beta iota.
  { intros _. exists cmd, a. split; [done|]. split; [by eexists|].
    right. rewrite !not_elem_of_cons.
    repeat split; try (apply not_elem_of_nil); intros E;
      unfold streq in *; rewrite E in *; discriminate. }
  destruct (resolve w a2) as [o2|] eqn:Ha2; [|by intros [=]].
  destruct (resolve_owned _ _ _ Hwf Ha2) as [Hn2 [v2 Hv2]].
  destruct (streq "plus" cmd); [|by intros [=]].
  destruct (_ || _); [by intros [=]|]. cbv beta iota.
  rewrite (plus_with_plus_new_run _ _ _ _ _ Hn1 Hn2 Hv1 Hv2).
  by intros [=].
Qed.

Lemma out_of_bounds_only_at_two_places_witness :
  ∃ cmd a,
    [mxChar "plus"; handle_token 1] = [mxChar cmd; a] ∧
    is_Some (resolve after_plus a) ∧
    (c_str cmd = "isValid" ∧ (1 ≤ 1)%Z
     ∨ c_str cmd
         ∉ ["new"; "newFromMatlab"; "delete"; "isValid"; "display";
            "double"]).
Proof.
  apply (out_of_bounds_only_at_two_places 1 _ after_plus).
  - apply world_wf_scenario.
  - by repeat constructor.
  - by vm_compute.
Defined.
